(** * Session orchestration and credential persistence: a shallow embedding

    The development follows the JavaScript sources module by module:

    - [SupabaseClient.js]     : the lazily created client singleton;
    - [SupabaseAuthState.js]  : the credential adapter handed to the
                                protocol engine ([readData], [writeData],
                                [removeData], [clearAll], [keys.get],
                                [keys.set], [saveCreds], bootstrap);
    - [SupabaseStorage.js]    : the media bucket adapter;
    - [WhatsAppManager.js]    : the registry of session handles.

    JavaScript calls that may throw (or, for [async] functions, reject) are
    given an [Outcome]; state that the code mutates is passed explicitly. *)

From stdpp Require Import base option list strings gmap.
From Stdlib Require Import ZArith Ascii Lia.

Set Warnings "-register-all".
Local Open Scope string_scope.
Local Open Scope Z_scope.
Local Open Scope list_scope.

(** ** JavaScript preliminaries *)

(** The result of evaluating a call: a value, or an exception carrying
    [e.message]. *)
Inductive Outcome (A : Type) : Type :=
| Returned (a : A)
| Threw (message : string).
Arguments Returned {A} a.
Arguments Threw {A} message.

(** The values that travel through the adapters.  [VBytes] stands for a
    [Buffer]; objects keep their properties in enumeration order. *)
Inductive Value : Type :=
| VUndefined
| VNull
| VBool (b : bool)
| VNum (n : Z)
| VStr (s : string)
| VBytes (bs : list Z)
| VArr (xs : list Value)
| VObj (fields : list (string * Value)).

(** [ToBoolean]: the falsy values are [undefined], [null], [false], [0] and
    the empty string. *)
Definition truthy (v : Value) : bool :=
  match v with
  | VUndefined | VNull => false
  | VBool b => b
  | VNum n => negb (n =? 0)
  | VStr s => negb (String.eqb s "")
  | VBytes _ | VArr _ | VObj _ => true
  end.

(** [fields[name]] for the properties of an object literal: the first
    entry under the name, [undefined] when there is none. *)
Fixpoint lookup_field (name : string) (fields : list (string * Value)) : Value :=
  match fields with
  | [] => VUndefined
  | (k, v) :: rest => if String.eqb k name then v else lookup_field name rest
  end.

(** [v.name] on an object built from a literal. *)
Definition get_field (name : string) (v : Value) : Value :=
  match v with
  | VObj fields => lookup_field name fields
  | _ => VUndefined
  end.

(** [JSON.parse(JSON.stringify(v))], which is what a value has become
    when it comes back from a JSON column: a [Buffer] is written through
    its [toJSON] and comes back as the plain object [{ type: 'Buffer',
    data: [...] }], a member that is [undefined] is left out, an array
    element that is [undefined] becomes [null].  The members are listed
    here in the order in which they are written; a [JSONB] column gives
    them back in an order of its own, which nothing in the code reads. *)
Fixpoint json (v : Value) : Value :=
  match v with
  | VUndefined => VNull
  | VNull | VBool _ | VNum _ | VStr _ => v
  | VBytes bs => VObj [("type", VStr "Buffer"); ("data", VArr (map VNum bs))]
  | VArr xs => VArr (map json xs)
  | VObj fields =>
      VObj ((fix members (fs : list (string * Value)) : list (string * Value) :=
               match fs with
               | [] => []
               | (_, VUndefined) :: rest => members rest
               | (k, x) :: rest => (k, json x) :: members rest
               end) fields)
  end.

(** JSON data: a value that holds no [Buffer] and no [undefined]. *)
Fixpoint plain (v : Value) : bool :=
  match v with
  | VUndefined | VBytes _ => false
  | VNull | VBool _ | VNum _ | VStr _ => true
  | VArr xs => forallb plain xs
  | VObj fields =>
      (fix members (fs : list (string * Value)) : bool :=
         match fs with
         | [] => true
         | (_, x) :: rest => plain x && members rest
         end) fields
  end.

(** The [TypeError] of a property read on [undefined]. *)
Definition undefined_read (property : string) : string :=
  "Cannot read properties of undefined (reading '" +:+ property +:+ "')".

(** ** Requests in flight

    Requests that are started together are served by the service, and
    their answers arrive, in an order that the code does not choose.  An
    order is given by a rank for each position of the list of started
    requests: the entries are taken by increasing rank, entries of equal
    rank in the order in which they were started. *)
Fixpoint insert_ranked {A : Type} (rank : nat -> nat) (x : nat * A)
         (l : list (nat * A)) : list (nat * A) :=
  match l with
  | [] => [x]
  | y :: l' =>
      if (rank x.1 <=? rank y.1)%nat then x :: l else y :: insert_ranked rank x l'
  end.

Definition arrange {A : Type} (rank : nat -> nat) (l : list A) : list A :=
  (foldr (insert_ranked rank) [] (zip (seq 0 (length l)) l)).*2.

(** An environment variable is truthy when it is set and not empty. *)
Definition env_truthy (o : option string) : bool :=
  match o with
  | Some s => negb (String.eqb s "")
  | None => false
  end.

(** The call returned. *)
Definition returns {A : Type} (o : Outcome A) : Prop :=
  match o with
  | Returned _ => True
  | Threw _ => False
  end.

(** How a request to the hosted service can go wrong: it may answer with an
    [error] field, or the call itself may throw.  The fate of a request is
    given by the request ([db_fault], [storage_fault] below); a request
    that fails changes nothing in the service. *)
Inductive Fault : Type :=
| NoFault
| ErrorResult (message : string)
| Throws (message : string).

(** What awaiting a request resolves to: [{ data, error }]. *)
Record Answer (A : Type) : Type := mkAnswer {
  data : option A;
  error : option string
}.
Arguments mkAnswer {A} data error.
Arguments data {A} a.
Arguments error {A} a.

(** Requests against the table [wa_auth_keys] (primary key
    [(session_id, key_id)], see [001_create_tables.sql]). *)
Inductive DbRequest : Type :=
| Select (session_id key_id : string)
| Upsert (session_id key_id : string)
| Delete (session_id key_id : string)
| DeleteSession (session_id : string).

(** Requests against a storage bucket. *)
Inductive StorageRequest : Type :=
| Upload (bucket path : string)
| CreateSignedUrl (bucket path : string) (expiresIn : Z)
| Download (bucket path : string)
| Remove (bucket : string) (paths : list string)
| ListFolder (bucket folder : string).

(** A stored media object. *)
Record Blob : Type := mkBlob {
  blob_bytes : list Z;
  blob_contentType : string
}.

(** The object returned by [createClient]; [client_serial] tells instances
    apart (object identity). *)
Record Client : Type := mkClient {
  client_serial : nat;
  client_url : string;
  client_key : string;
  autoRefreshToken : bool;
  persistSession : bool
}.

(** Lines written with [console.error] / [console.log] by the adapters. *)
Inductive LogLine : Type :=
| LogAuthWriteError (sessionId keyId message : string)
| LogAuthDeleted (sessionId : string)
| LogAuthDeleteError (sessionId message : string)
| LogStorageUploadError (sessionId message : string)
| LogSignedUrlError (sessionId message : string)
| LogMediaUploaded (sessionId path : string)
| LogUploadError (sessionId message : string)
| LogMediaDeleted (sessionId path : string)
| LogAllMediaDeleted (sessionId : string) (count : nat)
| LogDeleteAllMediaError (sessionId message : string).

(** What lies outside the repository: the failures of the hosted service,
    its listing and URL signing, the path it answers an upload with, the
    order in which it serves and answers requests that are in flight
    together, the random source, the functions of the protocol library
    and of [crypto] that the code calls, and the protocol engine.

    [Curve_exported] tells whether the object from which [initAuthCreds]
    takes [Curve] (line 141: the [default] export of the library when
    there is one, the module otherwise) has that member.  The library's
    default export is the function that makes a socket, which has none:
    with the library as it is, [Curve_exported] is [false]. *)
Record External : Type := mkExternal {
  db_fault : DbRequest -> Fault;
  storage_fault : StorageRequest -> Fault;
  storage_listing : gmap (string * string) Blob -> string -> string -> list string;
  signedUrl : string -> string -> Z -> string;
  answered_path : string -> string -> string;
  serve_rank : nat -> nat;
  answer_rank : nat -> nat;
  randomByte : nat -> Z;
  Curve_exported : bool;
  Curve_publicKey : list Z -> list Z;
  Curve_sign : list Z -> list Z -> list Z;
  toBase64 : list Z -> string;
  fromObject : Value -> Value;
  engine_error : string -> option string;
  teardown_error : string -> option string
}.

(** The mutable state the three service modules act on. *)
Record World : Type := mkWorld {
  penv : gmap string string;               (* process.env *)
  supabaseClient : option Client;          (* module variable *)
  clients_created : nat;                   (* calls to createClient so far *)
  auth_keys : gmap (string * string) Value; (* rows of wa_auth_keys *)
  objects : gmap (string * string) Blob;   (* bucket contents *)
  console : list LogLine;
  entropy : nat;                           (* bytes drawn from the random source *)
  session_configs : gmap string (Value * Value) (* persisted metadata, webhooks *)
}.

Definition set_client (c : Client) (w : World) : World :=
  mkWorld (penv w) (Some c) (S (clients_created w)) (auth_keys w) (objects w)
          (console w) (entropy w) (session_configs w).

Definition set_penv (e : gmap string string) (w : World) : World :=
  mkWorld e (supabaseClient w) (clients_created w) (auth_keys w) (objects w)
          (console w) (entropy w) (session_configs w).

Definition set_auth_keys (t : gmap (string * string) Value) (w : World) : World :=
  mkWorld (penv w) (supabaseClient w) (clients_created w) t (objects w)
          (console w) (entropy w) (session_configs w).

Definition set_objects (o : gmap (string * string) Blob) (w : World) : World :=
  mkWorld (penv w) (supabaseClient w) (clients_created w) (auth_keys w) o
          (console w) (entropy w) (session_configs w).

Definition log (l : LogLine) (w : World) : World :=
  mkWorld (penv w) (supabaseClient w) (clients_created w) (auth_keys w) (objects w)
          (console w ++ [l]) (entropy w) (session_configs w).

Definition set_entropy (n : nat) (w : World) : World :=
  mkWorld (penv w) (supabaseClient w) (clients_created w) (auth_keys w) (objects w)
          (console w) n (session_configs w).

Definition set_session_configs (c : gmap string (Value * Value)) (w : World) : World :=
  mkWorld (penv w) (supabaseClient w) (clients_created w) (auth_keys w) (objects w)
          (console w) (entropy w) c.

(** ** SupabaseClient.js *)

Module SupabaseClient.

Definition missing_config : string :=
  "SUPABASE_URL and SUPABASE_SERVICE_KEY must be set in environment variables".

(** [createClient(url, key, { auth: { autoRefreshToken: false,
    persistSession: false } })]. *)
Definition createClient (serial : nat) (url key : string) : Client :=
  mkClient serial url key false false.

(** Lines 12-30.  An environment variable that is unset or empty fails
    the test [!supabaseUrl || !supabaseKey]. *)
Definition getSupabaseClient (w : World) : Outcome Client * World :=
  match supabaseClient w with
  | Some c => (Returned c, w)
  | None =>
      let supabaseUrl := penv w !! "SUPABASE_URL" in
      let supabaseKey := penv w !! "SUPABASE_SERVICE_KEY" in
      if negb (env_truthy supabaseUrl) || negb (env_truthy supabaseKey)
      then (Threw missing_config, w)
      else
        let c := createClient (clients_created w)
                              (default "" supabaseUrl) (default "" supabaseKey) in
        (Returned c, set_client c w)
  end.

(** [process.env.SUPABASE_STORAGE_BUCKET || 'chatery-media']. *)
Definition getStorageBucket (w : World) : string :=
  let b := penv w !! "SUPABASE_STORAGE_BUCKET" in
  if env_truthy b then default "" b else "chatery-media".

(** [!!(process.env.SUPABASE_URL && process.env.SUPABASE_SERVICE_KEY)]. *)
Definition isSupabaseConfigured (w : World) : bool :=
  env_truthy (penv w !! "SUPABASE_URL") && env_truthy (penv w !! "SUPABASE_SERVICE_KEY").

(** A run of later calls, the environment being replaced by an arbitrary
    one before each call. *)
Fixpoint later_calls (envs : list (gmap string string)) (w : World)
  : list (Outcome Client) * World :=
  match envs with
  | [] => ([], w)
  | e :: envs' =>
      let '(r, w1) := getSupabaseClient (set_penv e w) in
      let '(rs, w2) := later_calls envs' w1 in
      (r :: rs, w2)
  end.

End SupabaseClient.

(** ** SupabaseAuthState.js *)

Module SupabaseAuthState.

(** The object returned by [useSupabaseAuthState]: the session it is
    bound to and [state.creds]; [keys.get], [keys.set], [saveCreds] and
    [clearAll] are the functions below applied to it. *)
Record AuthState : Type := mkAuthState {
  auth_sessionId : string;
  creds : Value
}.

Section Adapter.
Context (X : External).

(** [.from('wa_auth_keys').select('key_data').eq('session_id', sessionId)
    .eq('key_id', keyId).single()]: [single] reports an error unless
    exactly one row matches. *)
Definition select_single (sessionId keyId : string) (w : World)
  : Outcome (Answer Value) :=
  match db_fault X (Select sessionId keyId) with
  | Throws m => Threw m
  | ErrorResult m => Returned (mkAnswer None (Some m))
  | NoFault =>
      match auth_keys w !! (sessionId, keyId) with
      | Some key_data => Returned (mkAnswer (Some key_data) None)
      | None => Returned (mkAnswer None (Some "PGRST116"))
      end
  end.

(** Lines 19-36: [null] when the request throws, when it answers with an
    error and when it answers without data; [data.key_data] otherwise. *)
Definition readData (sessionId keyId : string) (w : World) : Value :=
  match select_single sessionId keyId w with
  | Returned a =>
      match error a, data a with
      | None, Some key_data => key_data
      | _, _ => VNull
      end
  | Threw _ => VNull
  end.

(** The message of the violation of [key_data JSONB NOT NULL]. *)
Definition not_null_violation : string :=
  let q := String (ascii_of_nat 34) "" in
  "null value in column " +:+ q +:+ "key_data" +:+ q +:+ " of relation " +:+ q
  +:+ "wa_auth_keys" +:+ q +:+ " violates not-null constraint".

(** [.upsert({ session_id, key_id, key_data }, { onConflict:
    'session_id,key_id' })].  The client sends the row as JSON, so the
    column holds [json keyData]; the column is [JSONB NOT NULL]
    ([001_create_tables.sql]) and refuses a row whose [key_data] is
    [null] or left out. *)
Definition upsert (sessionId keyId : string) (keyData : Value) (w : World)
  : Outcome (Answer unit) * World :=
  match db_fault X (Upsert sessionId keyId) with
  | Throws m => (Threw m, w)
  | ErrorResult m => (Returned (mkAnswer None (Some m)), w)
  | NoFault =>
      match json keyData with
      | VNull => (Returned (mkAnswer None (Some not_null_violation)), w)
      | stored =>
          (Returned (mkAnswer None None),
           set_auth_keys (<[(sessionId, keyId) := stored]> (auth_keys w)) w)
      end
  end.

(** Lines 41-59: an error answer and an exception are both printed and
    nothing is passed on to the caller. *)
Definition writeData (sessionId keyId : string) (keyData : Value) (w : World)
  : World :=
  match upsert sessionId keyId keyData w with
  | (Returned a, w1) =>
      match error a with
      | Some m => log (LogAuthWriteError sessionId keyId m) w1
      | None => w1
      end
  | (Threw m, w1) => log (LogAuthWriteError sessionId keyId m) w1
  end.

(** [.delete().eq('session_id', sessionId).eq('key_id', keyId)]. *)
Definition delete_key (sessionId keyId : string) (w : World)
  : Outcome (Answer unit) * World :=
  match db_fault X (Delete sessionId keyId) with
  | Throws m => (Threw m, w)
  | ErrorResult m => (Returned (mkAnswer None (Some m)), w)
  | NoFault =>
      (Returned (mkAnswer None None),
       set_auth_keys (delete (sessionId, keyId) (auth_keys w)) w)
  end.

(** Lines 64-74: the answer is not inspected and an exception is
    swallowed ("Silent fail"). *)
Definition removeData (sessionId keyId : string) (w : World) : World :=
  match delete_key sessionId keyId w with
  | (Returned _, w1) => w1
  | (Threw _, w1) => w1
  end.

(** [.delete().eq('session_id', sessionId)]. *)
Definition delete_session (sessionId : string) (w : World)
  : Outcome (Answer unit) * World :=
  match db_fault X (DeleteSession sessionId) with
  | Throws m => (Threw m, w)
  | ErrorResult m => (Returned (mkAnswer None (Some m)), w)
  | NoFault =>
      (Returned (mkAnswer None None),
       set_auth_keys
         (filter (fun kv : (string * string) * Value => kv.1.1 <> sessionId)
                 (auth_keys w)) w)
  end.

(** Lines 79-88, with the same silent handler. *)
Definition clearAll (sessionId : string) (w : World) : World :=
  match delete_session sessionId w with
  | (Returned _, w1) => w1
  | (Threw _, w1) => w1
  end.

(** Code that acts on the world and may throw: what is left of the world
    when it throws is part of the result. *)
Definition Run (A : Type) : Type := World -> Outcome A * World.

Definition ret {A : Type} (a : A) : Run A := fun w => (Returned a, w).

Definition bind {A B : Type} (m : Run A) (f : A -> Run B) : Run B :=
  fun w =>
    match m w with
    | (Returned a, w1) => f a w1
    | (Threw e, w1) => (Threw e, w1)
    end.

Notation "x <- m ;; k" := (bind m (fun x => k))
  (at level 100, m at next level, k at level 200, right associativity).

(** [crypto.randomBytes(n)]. *)
Definition randomBytes (n : nat) : Run (list Z) :=
  fun w => (Returned (map (randomByte X) (seq (entropy w) n)),
            set_entropy (entropy w + n)%nat w).

(** [buffer.readUInt16BE(0)]. *)
Definition readUInt16BE (bs : list Z) : Z :=
  match bs with
  | hi :: lo :: _ => hi * 256 + lo
  | _ => 0
  end.

(** [{ private: privateKey, public: publicKey }]. *)
Definition keyPairObject (priv pub : list Z) : Value :=
  VObj [("private", VBytes priv); ("public", VBytes pub)].

(** The read of a member of [Curve]: a [TypeError] when line 141 has
    left [Curve] undefined. *)
Definition Curve (member : string) : Run unit :=
  fun w => if Curve_exported X then (Returned tt, w)
           else (Threw (undefined_read member), w).

(** Lines 144-148: the bytes are drawn before [Curve.publicKey] is
    read. *)
Definition generateKeyPair : Run (list Z * list Z) :=
  privateKey <- randomBytes 32 ;;
  _ <- Curve "publicKey" ;;
  ret (privateKey, Curve_publicKey X privateKey).

(** Lines 151-156. *)
Definition generateSignedKeyPair (identityPrivate : list Z) : Run Value :=
  kid <- randomBytes 2 ;;
  keyPair <- generateKeyPair ;;
  _ <- Curve "sign" ;;
  ret (VObj [("keyId", VNum (Z.land (readUInt16BE kid) 65535));
             ("keyPair", keyPairObject keyPair.1 keyPair.2);
             ("signature", VBytes (Curve_sign X identityPrivate keyPair.2))]).

(** Lines 139-179.  The identity key is drawn first, then the members of
    the object literal in the order in which they are written. *)
Definition initAuthCreds : Run Value :=
  identityKey <- generateKeyPair ;;
  noiseKey <- generateKeyPair ;;
  pairingEphemeralKeyPair <- generateKeyPair ;;
  signedPreKey <- generateSignedKeyPair identityKey.1 ;;
  reg <- randomBytes 2 ;;
  adv <- randomBytes 32 ;;
  ret (VObj [("noiseKey", keyPairObject noiseKey.1 noiseKey.2);
             ("pairingEphemeralKeyPair",
              keyPairObject pairingEphemeralKeyPair.1 pairingEphemeralKeyPair.2);
             ("signedIdentityKey", keyPairObject identityKey.1 identityKey.2);
             ("signedPreKey", signedPreKey);
             ("registrationId", VNum (Z.land (readUInt16BE reg) 16383));
             ("advSecretKey", VStr (toBase64 X adv));
             ("processedHistoryMessages", VArr []);
             ("nextPreKeyId", VNum 1);
             ("firstUnuploadedPreKeyId", VNum 1);
             ("accountSyncCounter", VNum 0);
             ("accountSettings", VObj [("unarchiveChats", VBool false)]);
             ("registered", VBool false);
             ("pairingCode", VUndefined);
             ("lastPropHash", VUndefined);
             ("routingInfo", VUndefined)]).

(** Lines 13-14 and 90-133: [getSupabaseClient()], then
    [const creds = await readData('creds') || initAuthCreds()]; what
    [initAuthCreds] throws rejects the call. *)
Definition useSupabaseAuthState (sessionId : string) (w : World)
  : Outcome AuthState * World :=
  match SupabaseClient.getSupabaseClient w with
  | (Threw m, w1) => (Threw m, w1)
  | (Returned _, w1) =>
      let stored := readData sessionId "creds" w1 in
      if truthy stored
      then (Returned (mkAuthState sessionId stored), w1)
      else (fresh <- initAuthCreds ;; ret (mkAuthState sessionId fresh)) w1
  end.

(** The template literal [`${category}-${id}`]. *)
Definition keyId_of (category id : string) : string :=
  category +:+ "-" +:+ id.

(** Lines 100-107: the body of the callback mapped over [ids] in
    [keys.get]. *)
Definition get_one (a : AuthState) (type id : string) (w : World) : Value :=
  let value := readData (auth_sessionId a) (keyId_of type id) w in
  if String.eqb type "app-state-sync-key" && truthy value
  then fromObject X value
  else value.

(** The object [data] of [keys.get], made by the literal [{}]: its own
    properties and its prototype. *)
Inductive Prototype : Type :=
| ObjectPrototype
| PrototypeSet (v : Value).

Record KeyData : Type := mkKeyData {
  own : gmap string Value;
  prototype : Prototype
}.

(** A value that, as a prototype, cuts an object off from the accessor
    ['__proto__'] of [Object.prototype]: [null], and an object that has a
    member of that name of its own (as [JSON.parse] makes it). *)
Definition hides_accessor (v : Value) : bool :=
  match v with
  | VNull => true
  | VObj fields =>
      existsb (fun kv : string * Value => String.eqb kv.1 "__proto__") fields
  | _ => false
  end.

(** Line 107, [data[id] = value].  For every id but ['__proto__'] this
    makes or replaces an own property.  ['__proto__'] is the accessor of
    [Object.prototype]: as long as [data] inherits it, the assignment
    makes no own property; it replaces the prototype when the value is an
    object or [null] and does nothing otherwise.  Once the prototype of
    [data] hides the accessor, the assignment makes an own property like
    any other. *)
Definition assign (id : string) (value : Value) (d : KeyData) : KeyData :=
  if String.eqb id "__proto__"
     && negb match prototype d with
             | ObjectPrototype => false
             | PrototypeSet v => hides_accessor v
             end
  then
    match value with
    | VNull | VBytes _ | VArr _ | VObj _ => mkKeyData (own d) (PrototypeSet value)
    | VUndefined | VBool _ | VNum _ | VStr _ => d
    end
  else mkKeyData (<[id := value]> (own d)) (prototype d).

(** Lines 97-110, [keys.get]: the reads are started together and change
    nothing; each callback assigns when its answer has arrived. *)
Definition keys_get (a : AuthState) (type : string) (ids : list string)
           (w : World) : KeyData :=
  foldl (fun data id => assign id (get_one a type id w) data)
        (mkKeyData ∅ ObjectPrototype) (arrange (answer_rank X) ids).

(** Lines 115-121: one task pushed by [keys.set], run on its own. *)
Definition set_task (a : AuthState) (category id : string) (value : Value)
           (w : World) : World :=
  let keyId := keyId_of category id in
  if truthy value
  then writeData (auth_sessionId a) keyId value w
  else removeData (auth_sessionId a) keyId w.

(** Lines 128-130. *)
Definition saveCreds (a : AuthState) (w : World) : World :=
  writeData (auth_sessionId a) "creds" (creds a) w.

(** Lines 184-197, the module-level [deleteSupabaseAuthState]:
    [getSupabaseClient()] is called outside the [try]. *)
Definition deleteSupabaseAuthState (sessionId : string) (w : World)
  : Outcome unit * World :=
  match SupabaseClient.getSupabaseClient w with
  | (Threw m, w1) => (Threw m, w1)
  | (Returned _, w1) =>
      match delete_session sessionId w1 with
      | (Returned _, w2) => (Returned tt, log (LogAuthDeleted sessionId) w2)
      | (Threw m, w2) => (Returned tt, log (LogAuthDeleteError sessionId m) w2)
      end
  end.

(** The (category, id, value) triples of a batch: [data] lists the
    categories in [for ... in] order, each with its ids in [for ... in]
    order, which is the order in which lines 113-122 start the tasks. *)
Definition triples (data : list (string * list (string * Value)))
  : list (string * string * Value) :=
  flat_map (fun entry : string * list (string * Value) =>
              map (fun kv : string * Value => (entry.1, kv.1, kv.2)) entry.2)
           data.

(** The request that the task of a triple sends. *)
Definition task_request (a : AuthState) (t : string * string * Value)
  : DbRequest :=
  if truthy t.2
  then Upsert (auth_sessionId a) (keyId_of t.1.1 t.1.2)
  else Delete (auth_sessionId a) (keyId_of t.1.1 t.1.2).

(** The row a triple addresses. *)
Definition task_row (a : AuthState) (t : string * string * Value)
  : string * string :=
  (auth_sessionId a, keyId_of t.1.1 t.1.2).

(** The request of a task is served: what the store does with it. *)
Definition task_served (a : AuthState) (t : string * string * Value) (w : World)
  : World :=
  if truthy t.2
  then (upsert (auth_sessionId a) (keyId_of t.1.1 t.1.2) t.2 w).2
  else (delete_key (auth_sessionId a) (keyId_of t.1.1 t.1.2) w).2.

(** The answer of a task has arrived: the rest of [writeData] (lines
    53-58) prints a failure, the rest of [removeData] does nothing. *)
Definition task_settled (a : AuthState) (t : string * string * Value) (w : World)
  : World :=
  if truthy t.2
  then
    match (upsert (auth_sessionId a) (keyId_of t.1.1 t.1.2) t.2 w).1 with
    | Returned answer =>
        match error answer with
        | Some m => log (LogAuthWriteError (auth_sessionId a)
                                           (keyId_of t.1.1 t.1.2) m) w
        | None => w
        end
    | Threw m => log (LogAuthWriteError (auth_sessionId a)
                                        (keyId_of t.1.1 t.1.2) m) w
    end
  else w.

(** What happens to the tasks of a batch, in the order in which it
    happens. *)
Inductive TaskEvent : Type :=
| Started (t : string * string * Value)
| Settled (t : string * string * Value).

(** Lines 111-125, [keys.set].  The loops call [writeData] or
    [removeData] for every triple without awaiting it, so every task is
    started, in enumeration order, before [Promise.all] awaits any.  The
    store serves the requests in an order of its own, and the answers
    arrive in an order of their own. *)
Definition keys_set_run (a : AuthState)
           (data : list (string * list (string * Value))) (w : World)
  : World * list TaskEvent :=
  let tasks := triples data in
  let served := arrange (serve_rank X) tasks in
  let arrived := arrange (answer_rank X) tasks in
  (foldl (fun w1 t => task_settled a t w1)
         (foldl (fun w1 t => task_served a t w1) w served) arrived,
   (Started <$> tasks) ++ (Settled <$> arrived)).

Definition keys_set (a : AuthState)
           (data : list (string * list (string * Value))) (w : World) : World :=
  (keys_set_run a data w).1.

(** The lines the tasks print. *)
Definition write_errors (a : AuthState) (ts : list (string * string * Value))
  : list LogLine :=
  flat_map (fun t : string * string * Value =>
              if truthy t.2 then
                match db_fault X (task_request a t) with
                | NoFault => []
                | ErrorResult e | Throws e =>
                    [LogAuthWriteError (auth_sessionId a)
                                       (keyId_of t.1.1 t.1.2) e]
                end
              else []) ts.


(** Bootstrap as the specification words it: for a session whose
    ["creds"] row exists the adapter is built with that row, and no
    identity has been generated. *)
Definition loads_existing_creds (sessionId : string) (w : World) : Prop :=
  forall v : Value,
    auth_keys w !! (sessionId, "creds") = Some v ->
    exists w' : World,
      useSupabaseAuthState sessionId w = (Returned (mkAuthState sessionId v), w') /\
      entropy w' = entropy w.

(** The round trip as the specification words it: a value written
    through [keys.set] under a category and an id and read back through
    [keys.get] for that category and id is the value written. *)
Definition round_trip (a : AuthState) (category id : string) (value : Value)
           (w : World) : Prop :=
  own (keys_get a category [id] (keys_set a [(category, [(id, value)])] w)) !! id
  = Some value.

(** The result of [keys.get] as the specification words it: a mapping
    with an entry for every requested id. *)
Definition entry_for_every_id (a : AuthState) (type : string) (ids : list string)
           (w : World) : Prop :=
  forall id : string, id ∈ ids -> is_Some (own (keys_get a type ids w) !! id).

End Adapter.

End SupabaseAuthState.

(** ** SupabaseStorage.js *)

Module SupabaseStorage.

(** An instance of the class; [this.supabase] is the module singleton
    kept in the [World]. *)
Record Storage : Type := mkStorage {
  sessionId : string;
  bucket : string
}.

(** [{ success: true, path, url }] (with [url: null] as [None]) or
    [{ success: false, error }]. *)
Inductive UploadResult : Type :=
| UploadSuccess (path : string) (url : option string)
| UploadFailure (error : string).

(** The field [success] of the result. *)
Definition success (r : UploadResult) : bool :=
  match r with
  | UploadSuccess _ _ => true
  | UploadFailure _ => false
  end.

(** Lines 8-12. *)
Definition constructor (sessionId : string) (w : World) : Outcome Storage * World :=
  match SupabaseClient.getSupabaseClient w with
  | (Threw m, w1) => (Threw m, w1)
  | (Returned _, w1) =>
      (Returned (mkStorage sessionId (SupabaseClient.getStorageBucket w1)), w1)
  end.

(** Lines 17-19: [`${this.sessionId}/${messageId}${extension}`]. *)
Definition _getStoragePath (s : Storage) (messageId extension : string) : string :=
  sessionId s +:+ "/" +:+ messageId +:+ extension.

(** The members that an object made by a literal inherits from
    [Object.prototype]; each of them is a function or an object. *)
Definition inherited_members : list string :=
  ["constructor"; "__proto__"; "hasOwnProperty"; "isPrototypeOf";
   "propertyIsEnumerable"; "toLocaleString"; "toString"; "valueOf";
   "__defineGetter__"; "__defineSetter__"; "__lookupGetter__";
   "__lookupSetter__"].

(** What [getExtensionFromMime] returns: a string, or the inherited
    member that the lookup found. *)
Inductive Extension : Type :=
| Suffix (extension : string)
| Inherited (member : string).

(** Lines 172-191: [mimeMap[mimeType] || ''].  The lookup on the literal
    also finds the inherited members, which are truthy. *)
Definition getExtensionFromMime (mimeType : string) : Extension :=
  let mimeMap : list (string * string) :=
    [("image/jpeg", ".jpg"); ("image/png", ".png"); ("image/gif", ".gif");
     ("image/webp", ".webp"); ("video/mp4", ".mp4"); ("video/3gpp", ".3gp");
     ("audio/ogg", ".ogg"); ("audio/mpeg", ".mp3"); ("audio/mp4", ".m4a");
     ("application/pdf", ".pdf"); ("application/msword", ".doc");
     ("application/vnd.openxmlformats-officedocument.wordprocessingml.document",
      ".docx");
     ("application/vnd.ms-excel", ".xls");
     ("application/vnd.openxmlformats-officedocument.spreadsheetml.sheet",
      ".xlsx")] in
  match find (fun kv : string * string => String.eqb kv.1 mimeType) mimeMap with
  | Some kv => Suffix kv.2
  | None =>
      if bool_decide (mimeType ∈ inherited_members) then Inherited mimeType
      else Suffix ""
  end.

Section Bucket.
Context (X : External).

(** [.storage.from(bucket).upload(path, buffer, { contentType, upsert:
    true })]: the object replaces what the requested path held; the
    answer carries [data.path], the path as the service gives it back
    (the client library cleans the path it was given: it removes the
    empty segments).  The bucket is indexed by the requested path, which
    tells the objects apart as the service does for the paths that it
    takes as they are. *)
Definition storage_upload (b path : string) (buffer : list Z) (mimeType : string)
           (w : World) : Outcome (Answer string) * World :=
  match storage_fault X (Upload b path) with
  | Throws m => (Threw m, w)
  | ErrorResult m => (Returned (mkAnswer None (Some m)), w)
  | NoFault =>
      (Returned (mkAnswer (Some (answered_path X b path)) None),
       set_objects (<[(b, path) := mkBlob buffer mimeType]> (objects w)) w)
  end.

(** [.createSignedUrl(path, expiresIn)]; the answer carries
    [data.signedUrl]. *)
Definition storage_createSignedUrl (b path : string) (expiresIn : Z)
  : Outcome (Answer string) :=
  match storage_fault X (CreateSignedUrl b path expiresIn) with
  | Throws m => Threw m
  | ErrorResult m => Returned (mkAnswer None (Some m))
  | NoFault => Returned (mkAnswer (Some (signedUrl X b path expiresIn)) None)
  end.

(** [.download(path)]. *)
Definition storage_download (b path : string) (w : World)
  : Outcome (Answer (list Z)) :=
  match storage_fault X (Download b path) with
  | Throws m => Threw m
  | ErrorResult m => Returned (mkAnswer None (Some m))
  | NoFault =>
      match objects w !! (b, path) with
      | Some o => Returned (mkAnswer (Some (blob_bytes o)) None)
      | None => Returned (mkAnswer None (Some "Object not found"))
      end
  end.

(** [.remove(paths)]. *)
Definition storage_remove (b : string) (paths : list string) (w : World)
  : Outcome (Answer unit) * World :=
  match storage_fault X (Remove b paths) with
  | Throws m => (Threw m, w)
  | ErrorResult m => (Returned (mkAnswer None (Some m)), w)
  | NoFault =>
      (Returned (mkAnswer (Some tt) None),
       set_objects (foldr (fun p o => delete (b, p) o) (objects w) paths) w)
  end.

(** [.list(folder)]: the names of the entries of the folder. *)
Definition storage_list (b folder : string) (w : World)
  : Outcome (Answer (list string)) :=
  match storage_fault X (ListFolder b folder) with
  | Throws m => Threw m
  | ErrorResult m => Returned (mkAnswer None (Some m))
  | NoFault => Returned (mkAnswer (Some (storage_listing X (objects w) b folder)) None)
  end.

(** The [TypeError] of a property read on [null]. *)
Definition null_read (property : string) : string :=
  "Cannot read properties of null (reading '" +:+ property +:+ "')".

(** Lines 29-66.  Whatever is thrown inside the [try], by a request or by
    the read of [data.path] or [urlData.signedUrl] on [null], ends in the
    handler of line 62. *)
Definition uploadMedia (s : Storage) (messageId : string) (buffer : list Z)
           (mimeType extension : string) (w : World) : UploadResult * World :=
  let storagePath := _getStoragePath s messageId extension in
  let caught m w1 := (UploadFailure m, log (LogUploadError (sessionId s) m) w1) in
  match storage_upload (bucket s) storagePath buffer mimeType w with
  | (Threw m, w1) => caught m w1
  | (Returned up, w1) =>
      match error up with
      | Some m => (UploadFailure m, log (LogStorageUploadError (sessionId s) m) w1)
      | None =>
          match storage_createSignedUrl (bucket s) storagePath 3600 with
          | Threw m => caught m w1
          | Returned signed =>
              match error signed with
              | Some m =>
                  let w2 := log (LogSignedUrlError (sessionId s) m) w1 in
                  match data up with
                  | Some stored => (UploadSuccess stored None, w2)
                  | None => caught (null_read "path") w2
                  end
              | None =>
                  let w2 := log (LogMediaUploaded (sessionId s) storagePath) w1 in
                  match data up, data signed with
                  | Some stored, Some url => (UploadSuccess stored (Some url), w2)
                  | None, _ => caught (null_read "path") w2
                  | Some _, None => caught (null_read "signedUrl") w2
                  end
              end
          end
      end
  end.

(** Lines 75-91. *)
Definition getMediaUrl (s : Storage) (messageId extension : string) (expiresIn : Z)
  : option string :=
  match storage_createSignedUrl (bucket s)
                                (_getStoragePath s messageId extension) expiresIn with
  | Returned a => match error a with Some _ => None | None => data a end
  | Threw _ => None
  end.

(** Lines 99-117. *)
Definition downloadMedia (s : Storage) (messageId extension : string) (w : World)
  : option (list Z) :=
  match storage_download (bucket s) (_getStoragePath s messageId extension) w with
  | Returned a => match error a with Some _ => None | None => data a end
  | Threw _ => None
  end.

(** Lines 124-138. *)
Definition deleteMedia (s : Storage) (messageId extension : string) (w : World)
  : World :=
  let storagePath := _getStoragePath s messageId extension in
  match storage_remove (bucket s) [storagePath] w with
  | (Returned a, w1) =>
      match error a with
      | None => log (LogMediaDeleted (sessionId s) storagePath) w1
      | Some _ => w1
      end
  | (Threw _, w1) => w1
  end.

(** Lines 143-167: nothing is removed when the listing fails or is empty;
    an exception is printed and goes no further. *)
Definition deleteAllMedia (s : Storage) (w : World) : World :=
  match storage_list (bucket s) (sessionId s) w with
  | Threw m => log (LogDeleteAllMediaError (sessionId s) m) w
  | Returned listed =>
      match error listed, data listed with
      | Some _, _ | None, None | None, Some [] => w
      | None, Some files =>
          let paths := map (fun name => sessionId s +:+ "/" +:+ name) files in
          match storage_remove (bucket s) paths w with
          | (Returned a, w1) =>
              match error a with
              | None => log (LogAllMediaDeleted (sessionId s) (length paths)) w1
              | Some _ => w1
              end
          | (Threw m, w1) => log (LogDeleteAllMediaError (sessionId s) m) w1
          end
      end
  end.

(** Tolerance of a signing failure as the specification words it: when
    the upload succeeds and the signed URL cannot be issued, the result
    is the success with the stored path and no URL. *)
Definition signing_failure_tolerated (s : Storage) (messageId : string)
           (buffer : list Z) (mimeType extension : string) (w : World) : Prop :=
  let storagePath := _getStoragePath s messageId extension in
  storage_fault X (Upload (bucket s) storagePath) = NoFault ->
  storage_fault X (CreateSignedUrl (bucket s) storagePath 3600) <> NoFault ->
  (uploadMedia s messageId buffer mimeType extension w).1
  = UploadSuccess (answered_path X (bucket s) storagePath) None.

End Bucket.

End SupabaseStorage.

(** ** The insertion-ordered [Map] of the manager *)

Module JsMap.
Section Ops.
Context {V : Type}.

(** [map.get(k)]. *)
Fixpoint get (k : string) (m : list (string * V)) : option V :=
  match m with
  | [] => None
  | (k', v) :: m' => if String.eqb k' k then Some v else get k m'
  end.

(** [map.has(k)]. *)
Definition has (k : string) (m : list (string * V)) : bool :=
  match get k m with
  | Some _ => true
  | None => false
  end.

(** [set] keeps the position of a key that is present and appends a
    new one. *)
Fixpoint set (k : string) (v : V) (m : list (string * V)) : list (string * V) :=
  match m with
  | [] => [(k, v)]
  | (k', v') :: m' =>
      if String.eqb k' k then (k, v) :: m' else (k', v') :: set k v m'
  end.

(** [map.delete(k)]. *)
Fixpoint delete (k : string) (m : list (string * V)) : list (string * V) :=
  match m with
  | [] => []
  | (k', v') :: m' =>
      if String.eqb k' k then delete k m' else (k', v') :: delete k m'
  end.

(** The keys in iteration order. *)
Definition keys (m : list (string * V)) : list string := map fst m.
End Ops.
End JsMap.

(** ** WhatsAppManager.js *)

(** [options] as the manager reads it: [options.metadata] and
    [options.webhooks] ([undefined] when not given). *)
Record Options : Type := mkOptions {
  opt_metadata : Value;
  opt_webhooks : Value
}.

(** The members of the class [WhatsAppSession] that the manager uses.
    [connect] and [logout] are awaited and may reject; what a method does to
    the handle and to the world outside the manager is returned with its
    outcome. *)
Record SessionClass (H W Info : Type) : Type := mkSessionClass {
  construct : string -> Options -> W -> H;
  connect : H -> W -> Outcome unit * H * W;
  logout : H -> W -> Outcome unit * H * W;
  updateConfig : Options -> H -> W -> H * W;
  _saveConfig : H -> W -> H * W;
  getInfo : H -> Info;
  connectionStatus : H -> string
}.
Arguments construct {H W Info} s _ _ _.
Arguments connect {H W Info} s _ _.
Arguments logout {H W Info} s _ _.
Arguments updateConfig {H W Info} s _ _ _.
Arguments _saveConfig {H W Info} s _ _.
Arguments getInfo {H W Info} s _.
Arguments connectionStatus {H W Info} s _.

Module WhatsAppManager.

(** [{ success, message, data }]. *)
Record Result (Info : Type) : Type := mkResult {
  success : bool;
  message : string;
  data : option Info
}.
Arguments mkResult {Info} success message data.
Arguments success {Info} r.
Arguments message {Info} r.
Arguments data {Info} r.

(** What the manager does that is visible from outside: the calls it
    makes on session handles and the lines it prints. *)
Inductive Event : Type :=
| Constructed (sessionId : string)
| SavedConfig (sessionId : string)
| UpdatedConfig (sessionId : string)
| ConnectCalled (sessionId : string)
| LogoutCalled (sessionId : string)
| LogFoundInSupabase (count : nat)
| LogCouldNotLoad (message : string)
| LogRestoring (sessionId : string)
| LogRestored (count : nat)
| LogErrorInitializing (message : string).

#[global] Instance Event_eq_dec : EqDecision Event.
Proof. solve_decision. Defined.

(** The sessions folder as the calls of [fs] find it.  A folder that
    [existsSync] does not see is made by [mkdirSync], which may throw.  A
    folder that is there is listed by [readdirSync], which may throw; each
    entry comes with what [statSync(...).isDirectory()] gives for it,
    which may throw as well (an entry removed in between, a link that
    points nowhere). *)
Inductive Folder : Type :=
| FolderMissing (mkdir : Outcome unit)
| FolderPresent (readdir : Outcome (list (string * Outcome bool))).

(** The manager with what it reads at start-up: the outcome of the query
    on [wa_sessions] (with [getSupabaseClient()] before it) and the
    sessions folder. *)
Record Manager (H W : Type) : Type := mkManager {
  sessions : list (string * H);
  useSupabase : bool;
  catalog : Outcome (Answer (list string));
  sessionsFolder : Folder;
  journal : list Event;
  world : W
}.
Arguments mkManager {H W} _ _ _ _ _ _.
Arguments sessions {H W} m.
Arguments useSupabase {H W} m.
Arguments catalog {H W} m.
Arguments sessionsFolder {H W} m.
Arguments journal {H W} m.
Arguments world {H W} m.

(** The message of the validation failure. *)
Definition invalid_id : string :=
  "Invalid session ID. Use only letters, numbers, underscore, and dash.".

(** The character class [[a-zA-Z0-9_-]]. *)
Definition class_char (c : ascii) : bool :=
  let n := nat_of_ascii c in
  ((97 <=? n) && (n <=? 122) || (65 <=? n) && (n <=? 90) ||
   (48 <=? n) && (n <=? 57) || (n =? 95) || (n =? 45))%nat.

(** Every character is in the class. *)
Fixpoint all_class (s : string) : bool :=
  match s with
  | EmptyString => true
  | String c s' => class_char c && all_class s'
  end.

(** [/^[a-zA-Z0-9_-]+$/.test(sessionId)]. *)
Definition regex_test (sessionId : string) : bool :=
  negb (String.eqb sessionId "") && all_class sessionId.

(** [new Set()] with [add]: insertion order, no duplicates. *)
Definition set_add (x : string) (s : list string) : list string :=
  if bool_decide (x ∈ s) then s else s ++ [x].

(** What restoring the sessions [ids] writes to the journal. *)
Definition restore_events (ids : list string) : list Event :=
  flat_map (fun id => [LogRestoring id; Constructed id; ConnectCalled id]) ids.

(** The number of handles constructed for [id] according to a journal. *)
Definition constructions (id : string) (j : list Event) : nat :=
  length (filter (fun e => e = Constructed id) j).

(** The number of handles the map holds for [id]. *)
Definition registered {V : Type} (id : string) (r : list (string * V)) : nat :=
  length (filter (fun k => k = id) (JsMap.keys r)).

Section Manager.
Context {H W Info : Type} (S : SessionClass H W Info).

(** Field updates. *)
Definition with_sessions (r : list (string * H)) (m : Manager H W) : Manager H W :=
  mkManager r (useSupabase m) (catalog m) (sessionsFolder m) (journal m) (world m).

Definition with_folder (f : Folder) (m : Manager H W) : Manager H W :=
  mkManager (sessions m) (useSupabase m) (catalog m) f (journal m) (world m).

Definition with_world (w : W) (m : Manager H W) : Manager H W :=
  mkManager (sessions m) (useSupabase m) (catalog m) (sessionsFolder m)
            (journal m) w.

(** One more entry in the journal. *)
Definition emit (e : Event) (m : Manager H W) : Manager H W :=
  mkManager (sessions m) (useSupabase m) (catalog m) (sessionsFolder m)
            (journal m ++ [e]) (world m).

(** Lines 25-43: the ids of the catalog. *)
Definition catalog_ids (sessionIds : list string) (m : Manager H W)
  : list string * Manager H W :=
  if useSupabase m then
    match catalog m with
    | Returned (mkAnswer (Some rows) None) =>
        (foldl (fun s id => set_add id s) sessionIds rows,
         emit (LogFoundInSupabase (length rows)) m)
    | Returned _ => (sessionIds, m)
    | Threw e => (sessionIds, emit (LogCouldNotLoad e) m)
    end
  else (sessionIds, m).

(** Lines 47-52: the loop over the entries of the folder; the first
    [statSync] that throws ends it. *)
Fixpoint directories (sessionIds : list string)
         (sessionDirs : list (string * Outcome bool)) : Outcome (list string) :=
  match sessionDirs with
  | [] => Returned sessionIds
  | (sessionId, Returned isDirectory) :: rest =>
      directories (if isDirectory then set_add sessionId sessionIds else sessionIds)
                  rest
  | (_, Threw e) :: _ => Threw e
  end.

(** Lines 45-56: the directories of the sessions folder, which is
    created when missing.  None of the calls of [fs] has a handler of its
    own. *)
Definition folder_ids (sessionIds : list string) (m : Manager H W)
  : Outcome (list string) * Manager H W :=
  match sessionsFolder m with
  | FolderPresent (Returned sessionDirs) => (directories sessionIds sessionDirs, m)
  | FolderPresent (Threw e) => (Threw e, m)
  | FolderMissing (Returned _) =>
      (Returned sessionIds, with_folder (FolderPresent (Returned [])) m)
  | FolderMissing (Threw e) => (Threw e, m)
  end.

(** Lines 58-64: the loop over the discovered ids.  The handle put in
    the map is the object [connect] acts on, so what [connect] leaves of
    it is what the map holds. *)
Fixpoint restore (sessionIds : list string) (m : Manager H W)
  : Outcome unit * Manager H W :=
  match sessionIds with
  | [] => (Returned tt, m)
  | sessionId :: rest =>
      let m1 := emit (LogRestoring sessionId) m in
      let session := construct S sessionId (mkOptions VUndefined VUndefined)
                               (world m1) in
      let m2 := emit (Constructed sessionId) m1 in
      let m3 := with_sessions (JsMap.set sessionId session (sessions m2)) m2 in
      let '(r, session', w') := connect S session (world m3) in
      let m4 := with_world w'
                  (with_sessions (JsMap.set sessionId session' (sessions m3))
                                 (emit (ConnectCalled sessionId) m3)) in
      match r with
      | Returned _ => restore rest m4
      | Threw e => (Threw e, m4)
      end
  end.

(** The [connect()] that the loop awaits for [sessionId] when it reaches
    it in the state [m]: the call on the handle made there. *)
Definition first_connect (sessionId : string) (m : Manager H W) : Outcome unit :=
  (connect S (construct S sessionId (mkOptions VUndefined VUndefined) (world m))
           (world m)).1.1.

(** Lines 23-56: the set of discovered ids, or the exception of a call
    of [fs]. *)
Definition discover (m : Manager H W) : Outcome (list string) * Manager H W :=
  let '(ids1, m1) := catalog_ids [] m in
  folder_ids ids1 m1.

(** The [try] around the whole body catches what the discovery and the
    loop let through. *)
Definition initExistingSessions (m : Manager H W) : Manager H W :=
  match discover m with
  | (Threw e, m2) => emit (LogErrorInitializing e) m2
  | (Returned sessionIds, m2) =>
      match restore sessionIds m2 with
      | (Returned _, m3) => emit (LogRestored (length sessionIds)) m3
      | (Threw e, m3) => emit (LogErrorInitializing e) m3
      end
  end.


(** Lines 93-96: the options given for a session that exists. *)
Definition update_existing (sessionId : string) (options : Options)
           (existingSession : H) (m : Manager H W) : H * Manager H W :=
  if truthy (opt_metadata options) || truthy (opt_webhooks options)
  then
    let '(h, w) := updateConfig S options existingSession (world m) in
    (h, with_world w
          (with_sessions (JsMap.set sessionId h (sessions m))
                         (emit (UpdatedConfig sessionId) m)))
  else (existingSession, m).

(** Lines 80-125.  A handle is put in the map before its [connect()] is
    awaited; what the awaited call throws goes to the caller. *)
Definition createSession (sessionId : string) (options : Options)
           (m : Manager H W) : Outcome (Result Info) * Manager H W :=
  if String.eqb sessionId "" || negb (regex_test sessionId)
  then (Returned (mkResult false invalid_id None), m)
  else
    match JsMap.get sessionId (sessions m) with
    | Some existingSession =>
        let '(existing1, m1) :=
          update_existing sessionId options existingSession m in
        if String.eqb (connectionStatus S existing1) "connected"
        then (Returned (mkResult false "Session already connected"
                                 (Some (getInfo S existing1))), m1)
        else
          let '(r, existing2, w2) := connect S existing1 (world m1) in
          let m2 := with_world w2
                      (with_sessions (JsMap.set sessionId existing2 (sessions m1))
                                     (emit (ConnectCalled sessionId) m1)) in
          match r with
          | Returned _ =>
              (Returned (mkResult true "Reconnecting existing session"
                                  (Some (getInfo S existing2))), m2)
          | Threw e => (Threw e, m2)
          end
    | None =>
        let session := construct S sessionId options (world m) in
        let m1 := emit (Constructed sessionId) m in
        let '(session1, w1) := _saveConfig S session (world m1) in
        let m2 := with_world w1 (emit (SavedConfig sessionId) m1) in
        let m3 := with_sessions (JsMap.set sessionId session1 (sessions m2)) m2 in
        let '(r, session2, w2) := connect S session1 (world m3) in
        let m4 := with_world w2
                    (with_sessions (JsMap.set sessionId session2 (sessions m3))
                                   (emit (ConnectCalled sessionId) m3)) in
        match r with
        | Returned _ =>
            (Returned (mkResult true "Session created" (Some (getInfo S session2))),
             m4)
        | Threw e => (Threw e, m4)
        end
    end.

(** Lines 132-134. *)
Definition getSession (sessionId : string) (m : Manager H W) : option H :=
  JsMap.get sessionId (sessions m).


(** Lines 153-162: [sessions.delete] comes after the awaited [logout()]
    and is reached when that call returns. *)
Definition deleteSession (sessionId : string) (m : Manager H W)
  : Outcome (Result Info) * Manager H W :=
  match JsMap.get sessionId (sessions m) with
  | None => (Returned (mkResult false "Session not found" None), m)
  | Some session =>
      let '(r, session', w') := logout S session (world m) in
      let m1 := with_world w'
                  (with_sessions (JsMap.set sessionId session' (sessions m))
                                 (emit (LogoutCalled sessionId) m)) in
      match r with
      | Returned _ =>
          (Returned (mkResult true "Session deleted successfully" None),
           with_sessions (JsMap.delete sessionId (sessions m1)) m1)
      | Threw e => (Threw e, m1)
      end
  end.



(** Isolation at start-up as the specification words it: every
    discovered session is instantiated, registered and asked to
    connect, whatever the [connect()] of another session did. *)
Definition restore_isolated (m : Manager H W) : Prop :=
  forall (ids : list string) (id : string),
    (discover m).1 = Returned ids ->
    id ∈ ids ->
    is_Some (getSession id (initExistingSessions m)) /\
    Constructed id ∈ journal (initExistingSessions m) /\
    ConnectCalled id ∈ journal (initExistingSessions m).

End Manager.

End WhatsAppManager.

(** ** WhatsAppSession *)

Module WhatsAppSession.

Record Handle : Type := mkHandle {
  sessionId : string;
  status : string;
  metadata : Value;
  webhooks : Value;
  media : SupabaseStorage.Storage
}.

Record Info : Type := mkInfo {
  info_sessionId : string;
  info_status : string;
  info_metadata : Value;
  info_webhooks : Value
}.

Definition with_status (st : string) (h : Handle) : Handle :=
  mkHandle (sessionId h) st (metadata h) (webhooks h) (media h).

Section Session.
Context (X : External).

(** Modelled from the spec: [WhatsAppSession.js] is not among the
    sources.  A handle starts [disconnected] with the metadata and
    webhooks of its options (empty when not given) and is wired to the
    media store of its session. *)
Definition construct (id : string) (options : Options) (w : World) : Handle :=
  mkHandle id "disconnected"
           (if truthy (opt_metadata options) then opt_metadata options else VObj [])
           (if truthy (opt_webhooks options) then opt_webhooks options else VArr [])
           (SupabaseStorage.mkStorage id (SupabaseClient.getStorageBucket w)).

(** Modelled from the spec: the initial configuration is persisted. *)
Definition _saveConfig (h : Handle) (w : World) : Handle * World :=
  (h, set_session_configs
        (<[sessionId h := (metadata h, webhooks h)]> (session_configs w)) w).

(** Modelled from the spec: [updateConfig] merges the supplied metadata
    and webhook fields into the record and persists the merged
    configuration; the connection state is left alone. *)
Definition updateConfig (options : Options) (h : Handle) (w : World)
  : Handle * World :=
  let h1 := mkHandle (sessionId h) (status h)
              (if truthy (opt_metadata options) then opt_metadata options
               else metadata h)
              (if truthy (opt_webhooks options) then opt_webhooks options
               else webhooks h)
              (media h) in
  _saveConfig h1 w.

(** Modelled from the spec: [connect] does nothing on a handle that is
    [connecting] or [connected]; otherwise the handle becomes
    [connecting] and the protocol engine is asked for a connection.  An
    error of the engine is an error of [connect] and leaves the handle
    [disconnected]. *)
Definition connect (h : Handle) (w : World) : Outcome unit * Handle * World :=
  if String.eqb (status h) "connecting" || String.eqb (status h) "connected"
  then (Returned tt, h, w)
  else
    match engine_error X (sessionId h) with
    | Some e => (Threw e, with_status "disconnected" h, w)
    | None => (Returned tt, with_status "connecting" h, w)
    end.

(** Modelled from the spec: [logout] tears down the live connection,
    ends the handle ([logged_out]) and triggers [clearAll()] on its
    credential store and [deleteAllMedia()] on its media store.  The
    spec does not say what [logout] does with an error of the engine
    during the teardown; as in [connect], it is an error of the call
    here, and nothing is cleaned up then. *)
Definition logout (h : Handle) (w : World) : Outcome unit * Handle * World :=
  match teardown_error X (sessionId h) with
  | Some e => (Threw e, h, w)
  | None =>
      let w1 := SupabaseAuthState.clearAll X (sessionId h) w in
      let w2 := SupabaseStorage.deleteAllMedia X (media h) w1 in
      (Returned tt, with_status "logged_out" h, w2)
  end.

(** Modelled from the spec: the snapshot (id, status, metadata,
    webhooks). *)
Definition getInfo (h : Handle) : Info :=
  mkInfo (sessionId h) (status h) (metadata h) (webhooks h).

(** Modelled from the spec: the class as the manager sees it. *)
Definition class : SessionClass Handle World Info :=
  mkSessionClass Handle World Info
                 construct connect logout updateConfig _saveConfig getInfo status.

End Session.

End WhatsAppSession.

(** ** Scenarios

    Concrete services and states on which the statements below are
    evaluated. *)

Module Scenario.

(** A service that answers every request, in the order in which the
    requests were started, an engine that accepts every connection and
    every teardown, and the library as it is: its default export has no
    [Curve].  The functions of the libraries are stand-ins: nothing below
    depends on which functions they are. *)
Definition healthy : External :=
  mkExternal (fun _ => NoFault) (fun _ => NoFault) (fun _ _ _ => [])
             (fun b p t => "https://signed/" +:+ b +:+ "/" +:+ p)
             (fun b p => p) (fun i => i) (fun i => i)
             (fun n => Z.of_nat n mod 256) false (fun k => k)
             (fun k m => (k ++ m)%list)
             (fun _ => "c2VjcmV0") (fun v => v) (fun _ => None) (fun _ => None).

(** Variations of a service. *)
Definition set_db_fault (f : DbRequest -> Fault) (X : External) : External :=
  mkExternal f (storage_fault X) (storage_listing X) (signedUrl X)
             (answered_path X) (serve_rank X) (answer_rank X) (randomByte X)
             (Curve_exported X) (Curve_publicKey X) (Curve_sign X) (toBase64 X)
             (fromObject X) (engine_error X) (teardown_error X).

Definition set_storage_fault (f : StorageRequest -> Fault) (X : External) : External :=
  mkExternal (db_fault X) f (storage_listing X) (signedUrl X)
             (answered_path X) (serve_rank X) (answer_rank X) (randomByte X)
             (Curve_exported X) (Curve_publicKey X) (Curve_sign X) (toBase64 X)
             (fromObject X) (engine_error X) (teardown_error X).

Definition set_listing
           (f : gmap (string * string) Blob -> string -> string -> list string)
           (X : External) : External :=
  mkExternal (db_fault X) (storage_fault X) f (signedUrl X)
             (answered_path X) (serve_rank X) (answer_rank X) (randomByte X)
             (Curve_exported X) (Curve_publicKey X) (Curve_sign X) (toBase64 X)
             (fromObject X) (engine_error X) (teardown_error X).

Definition set_ranks (served answered : nat -> nat) (X : External) : External :=
  mkExternal (db_fault X) (storage_fault X) (storage_listing X) (signedUrl X)
             (answered_path X) served answered (randomByte X)
             (Curve_exported X) (Curve_publicKey X) (Curve_sign X) (toBase64 X)
             (fromObject X) (engine_error X) (teardown_error X).

Definition set_Curve_exported (b : bool) (X : External) : External :=
  mkExternal (db_fault X) (storage_fault X) (storage_listing X) (signedUrl X)
             (answered_path X) (serve_rank X) (answer_rank X) (randomByte X)
             b (Curve_publicKey X) (Curve_sign X) (toBase64 X)
             (fromObject X) (engine_error X) (teardown_error X).

Definition set_engine_error (f : string -> option string) (X : External) : External :=
  mkExternal (db_fault X) (storage_fault X) (storage_listing X) (signedUrl X)
             (answered_path X) (serve_rank X) (answer_rank X) (randomByte X)
             (Curve_exported X) (Curve_publicKey X) (Curve_sign X) (toBase64 X)
             (fromObject X) f (teardown_error X).



(** A library object that has [Curve]. *)
Definition with_Curve : External := set_Curve_exported true healthy.

Definition blank : World := mkWorld ∅ None 0 ∅ ∅ [] 0 ∅.

Definition configured_env : gmap string string :=
  <["SUPABASE_URL" := "https://db.example"]>
    (<["SUPABASE_SERVICE_KEY" := "service-key"]> ∅).

Definition configured : World := set_penv configured_env blank.

Definition fresh_manager : WhatsAppManager.Manager WhatsAppSession.Handle World :=
  WhatsAppManager.mkManager [] false (Threw "not configured")
                            (WhatsAppManager.FolderPresent (Returned [])) [] blank.

(** The engine refuses the connection of session [alpha]. *)
Definition refusing_alpha : External :=
  set_engine_error (fun id => if String.eqb id "alpha" then Some "Connection Failure"
                              else None) healthy.

(** Start-up with two session directories and no catalog. *)
Definition two_directories : WhatsAppManager.Manager WhatsAppSession.Handle World :=
  WhatsAppManager.mkManager
    [] false (Threw "not configured")
    (WhatsAppManager.FolderPresent
       (Returned [("alpha", Returned true); ("beta", Returned true)])) [] blank.


Definition with_db_fault (f : DbRequest -> Fault) : External :=
  set_db_fault f healthy.

Definition with_storage_fault (f : StorageRequest -> Fault) : External :=
  set_storage_fault f healthy.

(** Deletions of single keys do not reach the store. *)
Definition delete_unreachable : External :=
  with_db_fault (fun r => match r with
                          | Delete _ _ => Throws "fetch failed"
                          | _ => NoFault
                          end).

(** Reads do not reach the store. *)
Definition select_unreachable : External :=
  with_db_fault (fun r => match r with
                          | Select _ _ => Throws "fetch failed"
                          | _ => NoFault
                          end).

(** The request for a signed URL throws. *)
Definition signing_throws : External :=
  with_storage_fault (fun r => match r with
                               | CreateSignedUrl _ _ _ => Throws "fetch failed"
                               | _ => NoFault
                               end).

(** The request for a signed URL answers with an error. *)
Definition signing_refused : External :=
  with_storage_fault (fun r => match r with
                               | CreateSignedUrl _ _ _ => ErrorResult "not allowed"
                               | _ => NoFault
                               end).

Definition alpha_auth : SupabaseAuthState.AuthState :=
  SupabaseAuthState.mkAuthState "alpha" (VObj [("registered", VBool true)]).

Definition alpha_media : SupabaseStorage.Storage :=
  SupabaseStorage.mkStorage "alpha" "chatery-media".

(** A batch that writes one pre-key and removes another. *)
Definition prekey_batch : list (string * list (string * Value)) :=
  [("pre-key", [("7", VObj [("public", VBytes [1; 2; 3])]); ("8", VNull)])].

(** A pre-key as JSON data, and a batch that writes it. *)
Definition plain_prekey : Value :=
  VObj [("keyId", VNum 7); ("public", VStr "BQXm")].

Definition plain_batch : list (string * list (string * Value)) :=
  [("pre-key", [("7", plain_prekey)])].

(** A batch that removes one pre-key. *)
Definition removal_batch : list (string * list (string * Value)) :=
  [("pre-key", [("8", VNull)])].

(** The read of the pre-key [9] of session [alpha] does not reach the
    store. *)
Definition prekey9_unreadable : External :=
  with_db_fault (fun r => match r with
                          | Select sid kid =>
                              if String.eqb kid "pre-key-9"
                              then Throws "fetch failed" else NoFault
                          | _ => NoFault
                          end).

Definition prekey7 : Value := VObj [("public", VBytes [1; 2; 3])].

(** The table holds the pre-keys [7] and [9] of session [alpha]. *)
Definition prekey_world : World :=
  set_auth_keys (<[("alpha", "pre-key-7") := json prekey7]>
                   (<[("alpha", "pre-key-9") := json prekey7]> ∅)) configured.

Definition alpha_handle : WhatsAppSession.Handle :=
  WhatsAppSession.mkHandle "alpha" "connected" (VObj []) (VArr [])
                           (SupabaseStorage.mkStorage "alpha" "chatery-media").

Definition alpha_credentials : gmap (string * string) Value :=
  <[("alpha", "creds") := VObj [("registered", VBool true)]]> ∅.

(** The table holds the credentials of session [alpha]. *)
Definition populated : World := set_auth_keys alpha_credentials configured.

Definition one_session : WhatsAppManager.Manager WhatsAppSession.Handle World :=
  WhatsAppManager.mkManager [("alpha", alpha_handle)] true (Threw "unused")
                            (WhatsAppManager.FolderPresent (Returned [])) []
                            (set_auth_keys alpha_credentials configured).

(** The environment names the service and nothing else. *)
Definition cached : World :=
  (SupabaseClient.getSupabaseClient configured).2.

(** The credentials of session [alpha] after the engine has registered. *)
Definition registered_creds : Value :=
  VObj [("registered", VBool true); ("registrationId", VNum 4711)].

(** A batch of the category [session] with two ids, one of them removed. *)
Definition session_batch : list (string * Value) :=
  [("491701@s.whatsapp.net", VBytes [5; 6]); ("491702@s.whatsapp.net", VNull)].

(** The table holds rows of the sessions [alpha] and [beta]. *)
Definition two_sessions_world : World :=
  set_auth_keys (<[("alpha", "creds") := registered_creds]>
                   (<[("alpha", "pre-key-7") := json prekey7]>
                      (<[("beta", "creds") := registered_creds]> ∅))) configured.

(** The bucket holds one object of session [alpha] and one of [beta]. *)
Definition media_world : World :=
  set_objects (<[("chatery-media", "alpha/3EB0A1.png") := mkBlob [1; 2] "image/png"]>
                 (<[("chatery-media", "beta/3EB0A1.png") := mkBlob [3] "image/png"]> ∅))
              configured.

(** A service whose listing names the objects of session [alpha]. *)
Definition listing_alpha : External :=
  set_listing (fun _ _ folder => if String.eqb folder "alpha" then ["3EB0A1.png"]
                                 else []) healthy.

(** Two categories whose keys meet in one row: ["sender-key"] with id
    ["memory-x"] and ["sender-key-memory"] with id ["x"]. *)
Definition colliding_batch : list (string * list (string * Value)) :=
  [("sender-key", [("memory-x", VStr "AQ")]);
   ("sender-key-memory", [("x", VObj [("491701@s.whatsapp.net", VBool true)])])].

(** Start-up with a sessions folder in which the entry [gone] is a link
    that points nowhere: [statSync] throws for it. *)
Definition dangling_link : WhatsAppManager.Manager WhatsAppSession.Handle World :=
  WhatsAppManager.mkManager
    [] false (Threw "not configured")
    (WhatsAppManager.FolderPresent
       (Returned [("alpha", Returned true);
                  ("gone", Threw "ENOENT: no such file or directory, stat 'sessions/gone'");
                  ("beta", Returned true)])) [] blank.

(** A service that serves the requests of a batch last first. *)
Definition last_first : External :=
  set_ranks (fun i => 100 - i)%nat (fun i => i) healthy.

(** The deletion of a whole session answers with an error. *)
Definition session_delete_refused : External :=
  with_db_fault (fun r => match r with
                          | DeleteSession _ => ErrorResult "permission denied"
                          | _ => NoFault
                          end).

(** The table of [two_sessions_world] behind a module that has its
    client. *)
Definition two_sessions_cached : World :=
  (SupabaseClient.getSupabaseClient two_sessions_world).2.

Definition the_client : Client :=
  SupabaseClient.createClient 0 "https://db.example" "service-key".

Definition beta_media : SupabaseStorage.Storage :=
  SupabaseStorage.mkStorage "beta" "chatery-media".

Definition no_options : Options := mkOptions VUndefined VUndefined.

End Scenario.

(** * Properties *)

(** ** SupabaseClient.js *)

Section ClientFacts.
Import SupabaseClient.

Lemma getSupabaseClient_cached (c : Client) (w : World) :
  supabaseClient w = Some c -> getSupabaseClient w = (Returned c, w).
Proof. intros Hc. unfold getSupabaseClient. by rewrite Hc. Qed.

Lemma getSupabaseClient_caches (c : Client) (w w1 : World) :
  getSupabaseClient w = (Returned c, w1) -> supabaseClient w1 = Some c.
Proof.
  unfold getSupabaseClient.
  destruct (supabaseClient w) as [c0|] eqn:Hc.
  - intros [= <- <-]. exact Hc.
  - destruct (negb _ || negb _); [discriminate|].
    intros [= <- <-]. reflexivity.
Qed.

Lemma later_calls_cached (c : Client) (envs : list (gmap string string)) (w : World) :
  supabaseClient w = Some c ->
  (later_calls envs w).1 = map (fun _ => Returned c) envs /\
  supabaseClient (later_calls envs w).2 = Some c /\
  clients_created (later_calls envs w).2 = clients_created w.
Proof.
  revert w. induction envs as [|e envs IH]; intros w Hc; [done|].
  simpl. rewrite (getSupabaseClient_cached c (set_penv e w)) by exact Hc.
  destruct (IH (set_penv e w) Hc) as (Hr & Hs & Hn).
  destruct (later_calls envs (set_penv e w)) as [rs w2]. simpl in *.
  by rewrite Hr.
Qed.

(** C10. [getSupabaseClient()] throws when no client exists yet and
    [SUPABASE_URL] or [SUPABASE_SERVICE_KEY] is unset, leaving the module
    variable empty; once a call has returned a client, every later call
    returns that same instance whatever the environment has become, and
    [createClient] is not called again. *)
Theorem getSupabaseClient_singleton (w : World) :
  (supabaseClient w = None ->
   penv w !! "SUPABASE_URL" = None \/ penv w !! "SUPABASE_SERVICE_KEY" = None ->
   getSupabaseClient w = (Threw missing_config, w)) /\
  (forall (c : Client) (w1 : World),
      getSupabaseClient w = (Returned c, w1) ->
      forall envs : list (gmap string string),
        (later_calls envs w1).1 = map (fun _ => Returned c) envs /\
        supabaseClient (later_calls envs w1).2 = Some c /\
        clients_created (later_calls envs w1).2 = clients_created w1).
Proof.
  split.
  - intros Hnone Hunset. unfold getSupabaseClient. rewrite Hnone.
    destruct Hunset as [-> | ->]; simpl; [done|].
    by rewrite orb_true_r.
  - intros c w1 Hcall envs.
    apply later_calls_cached. by eapply getSupabaseClient_caches.
Qed.

Lemma getSupabaseClient_singleton_witness :
  getSupabaseClient Scenario.blank = (Threw missing_config, Scenario.blank) /\
  (later_calls [∅; Scenario.configured_env]
               (getSupabaseClient Scenario.configured).2).1
  = [Returned (createClient 0 "https://db.example" "service-key");
     Returned (createClient 0 "https://db.example" "service-key")].
Proof.
  split.
  - apply (getSupabaseClient_singleton Scenario.blank); [reflexivity|].
    left. reflexivity.
  - apply (proj2 (getSupabaseClient_singleton Scenario.configured)
                 (createClient 0 "https://db.example" "service-key")
                 (getSupabaseClient Scenario.configured).2).
    vm_compute. reflexivity.
Defined.

End ClientFacts.

(** ** The map of the manager *)

Section JsMapFacts.
Context {V : Type}.
Implicit Types (m : list (string * V)) (k : string) (v : V).

Lemma jsmap_get_set_eq k v m : JsMap.get k (JsMap.set k v m) = Some v.
Proof.
  induction m as [|[k' v'] m IH]; simpl.
  - by rewrite String.eqb_refl.
  - destruct (String.eqb k' k) eqn:E; simpl.
    + by rewrite String.eqb_refl.
    + by rewrite E.
Qed.

Lemma jsmap_get_set_ne k k' v m :
  k <> k' -> JsMap.get k' (JsMap.set k v m) = JsMap.get k' m.
Proof.
  intros Hne. induction m as [|[k0 v0] m IH]; simpl.
  - destruct (String.eqb k k') eqn:E; [|done].
    apply String.eqb_eq in E. contradiction.
  - destruct (String.eqb k0 k) eqn:E; simpl.
    + apply String.eqb_eq in E. subst k0.
      destruct (String.eqb k k') eqn:E'; [|done].
      apply String.eqb_eq in E'. contradiction.
    + by rewrite IH.
Qed.

Lemma jsmap_get_delete_eq k m : JsMap.get k (JsMap.delete k m) = None.
Proof.
  induction m as [|[k' v'] m IH]; simpl; [done|].
  destruct (String.eqb k' k) eqn:E; simpl; [done|]. by rewrite E.
Qed.

Lemma jsmap_get_delete_ne k k' m :
  k <> k' -> JsMap.get k' (JsMap.delete k m) = JsMap.get k' m.
Proof.
  intros Hne. induction m as [|[k0 v0] m IH]; simpl; [done|].
  destruct (String.eqb k0 k) eqn:E; simpl.
  - apply String.eqb_eq in E. subst k0.
    destruct (String.eqb k k') eqn:E'; [|done].
    apply String.eqb_eq in E'. contradiction.
  - by rewrite IH.
Qed.

Lemma jsmap_get_None k m : JsMap.get k m = None <-> k ∉ JsMap.keys m.
Proof.
  induction m as [|[k' v'] m IH]; simpl.
  - split; [intros _; apply not_elem_of_nil | done].
  - rewrite not_elem_of_cons. destruct (String.eqb k' k) eqn:E.
    + apply String.eqb_eq in E. subst. split; [done | intros [? _]; done].
    + apply String.eqb_neq in E. rewrite IH. split; [|tauto].
      intros ?; split; [congruence | done].
Qed.

Lemma jsmap_keys_set_present k v m :
  k ∈ JsMap.keys m -> JsMap.keys (JsMap.set k v m) = JsMap.keys m.
Proof.
  induction m as [|[k' v'] m IH]; simpl.
  - intros Hin. by apply elem_of_nil in Hin.
  - intros Hin. destruct (String.eqb k' k) eqn:E; simpl.
    + apply String.eqb_eq in E. by subst.
    + f_equal. apply IH. apply elem_of_cons in Hin as [->|Hin]; [|done].
      by rewrite String.eqb_refl in E.
Qed.

Lemma jsmap_keys_set_absent k v m :
  k ∉ JsMap.keys m -> JsMap.keys (JsMap.set k v m) = JsMap.keys m ++ [k].
Proof.
  induction m as [|[k' v'] m IH]; simpl; [done|].
  intros Hin. apply not_elem_of_cons in Hin as [Hne Hin].
  destruct (String.eqb k' k) eqn:E; simpl.
  - apply String.eqb_eq in E. congruence.
  - f_equal. by apply IH.
Qed.



Lemma jsmap_set_NoDup k v m :
  NoDup (JsMap.keys m) -> NoDup (JsMap.keys (JsMap.set k v m)).
Proof.
  intros Hnd. destruct (decide (k ∈ JsMap.keys m)) as [Hin|Hin].
  - by rewrite jsmap_keys_set_present.
  - rewrite jsmap_keys_set_absent by done.
    apply NoDup_app. split; [done|]. split; [|apply NoDup_singleton].
    intros x Hx Hx'. apply list_elem_of_singleton in Hx'. by subst.
Qed.

Lemma filter_eq_absent (k : string) (l : list string) :
  k ∉ l -> filter (fun k' => k' = k) l = [].
Proof.
  induction l as [|x l IH]; intros Hin; [done|].
  apply not_elem_of_cons in Hin as [Hne Hin].
  rewrite filter_cons_False by congruence. by apply IH.
Qed.

Lemma registered_NoDup k m :
  NoDup (JsMap.keys m) -> k ∈ JsMap.keys m -> WhatsAppManager.registered k m = 1%nat.
Proof.
  unfold WhatsAppManager.registered. generalize (JsMap.keys m) as l.
  induction l as [|x l IH]; intros Hnd Hin.
  - by apply elem_of_nil in Hin.
  - apply NoDup_cons in Hnd as [Hx Hnd].
    destruct (decide (x = k)) as [->|Hne].
    + rewrite filter_cons_True by done. simpl.
      by rewrite filter_eq_absent.
    + rewrite filter_cons_False by done. apply IH; [done|].
      apply elem_of_cons in Hin as [->|Hin]; [congruence | done].
Qed.

Lemma jsmap_get_Some_keys k v m : JsMap.get k m = Some v -> k ∈ JsMap.keys m.
Proof.
  intros Hget. destruct (decide (k ∈ JsMap.keys m)) as [|Hn]; [done|].
  apply jsmap_get_None in Hn. congruence.
Qed.

End JsMapFacts.

(** ** WhatsAppManager.js: validation and deletion *)

Section ManagerFacts.
Import WhatsAppManager.
Context {H W Info : Type} (S : SessionClass H W Info).
Implicit Types (m : Manager H W) (h : H).

Lemma all_class_outside (s : string) (c : ascii) :
  c ∈ String.list_ascii_of_string s -> class_char c = false -> all_class s = false.
Proof.
  induction s as [|a s IH]; simpl; intros Hin Hc.
  - by apply elem_of_nil in Hin.
  - apply elem_of_cons in Hin as [<-|Hin].
    + by rewrite Hc.
    + rewrite (IH Hin Hc). apply andb_false_r.
Qed.

(** The test accepts exactly the non-empty strings over the class. *)
Lemma regex_test_spec (s : string) :
  regex_test s = true <->
  s <> "" /\ forall c : ascii, c ∈ String.list_ascii_of_string s -> class_char c = true.
Proof.
  unfold regex_test. rewrite andb_true_iff, negb_true_iff, String.eqb_neq.
  apply and_iff_compat_l.
  induction s as [|a s IH]; simpl.
  - split; [intros _ c Hc; by apply elem_of_nil in Hc | done].
  - rewrite andb_true_iff, IH. split.
    + intros [Ha Hs] c Hc. apply elem_of_cons in Hc as [->|Hc]; auto.
    + intros Hall. split; [apply Hall, list_elem_of_here|].
      intros c Hc. by apply Hall, list_elem_of_further.
Qed.

Example regex_test_samples :
  regex_test "Session_01-a" = true /\ regex_test "" = false /\
  regex_test "my session" = false /\ regex_test "a/b" = false /\
  regex_test "abc.def" = false.
Proof. repeat split. Qed.

(** C5. For a session id that is empty or holds a character outside
    [[A-Za-z0-9_-]], [createSession] returns the validation failure and
    leaves the manager as it was: the map of handles, the world behind the
    handles and the journal of calls are those before the call. *)
Theorem createSession_invalid_id (sessionId : string) (options : Options) m :
  sessionId = "" \/
  (exists c : ascii, c ∈ String.list_ascii_of_string sessionId /\ class_char c = false) ->
  createSession S sessionId options m
  = (Returned (mkResult false invalid_id None), m).
Proof.
  intros Hbad. unfold createSession.
  assert (String.eqb sessionId "" || negb (regex_test sessionId) = true) as ->;
    [|done].
  destruct Hbad as [-> | (c & Hin & Hc)]; [done|].
  unfold regex_test. rewrite (all_class_outside _ _ Hin Hc).
  rewrite andb_false_r. apply orb_true_r.
Qed.


Lemma deleteSession_absent (sessionId : string) m :
  getSession sessionId m = None ->
  deleteSession S sessionId m = (Returned (mkResult false "Session not found" None), m).
Proof. unfold getSession, deleteSession. by intros ->. Qed.




End ManagerFacts.

Section DeleteFacts.
Import WhatsAppManager.
Context (X : External).
Implicit Types (m : Manager WhatsAppSession.Handle World).

(** The handle of the specification: when the engine accepts the
    teardown, [logout] returns whatever the stores report or throw during
    the cleanup. *)
Lemma logout_returns (h : WhatsAppSession.Handle) (w : World) :
  teardown_error X (WhatsAppSession.sessionId h) = None ->
  (WhatsAppSession.logout X h w).1
  = (Returned tt, WhatsAppSession.with_status "logged_out" h).
Proof. intros Hok. unfold WhatsAppSession.logout. by rewrite Hok. Qed.

(** With the store reachable, [logout] leaves no credential row of the
    session and touches no row of another session. *)
Lemma logout_clears_credentials (h : WhatsAppSession.Handle) (w : World)
      (row : string * string) :
  teardown_error X (WhatsAppSession.sessionId h) = None ->
  db_fault X (DeleteSession (WhatsAppSession.sessionId h)) = NoFault ->
  auth_keys (WhatsAppSession.logout X h w).2 !! row
  = if decide (row.1 = WhatsAppSession.sessionId h) then None else auth_keys w !! row.
Proof.
  intros Hdown Hok. unfold WhatsAppSession.logout. rewrite Hdown. simpl.
  assert (forall w0, auth_keys (SupabaseStorage.deleteAllMedia X (WhatsAppSession.media h) w0)
                     = auth_keys w0) as ->.
  { intros w0. unfold SupabaseStorage.deleteAllMedia, SupabaseStorage.storage_list,
      SupabaseStorage.storage_remove.
    destruct (storage_fault X (ListFolder _ _)); simpl; try done.
    destruct (storage_listing X _ _ _); simpl; [done|].
    by destruct (storage_fault X (Remove _ _)). }
  unfold SupabaseAuthState.clearAll, SupabaseAuthState.delete_session.
  rewrite Hok. simpl. rewrite map_lookup_filter.
  destruct (auth_keys w !! row) as [v|] eqn:Hrow; simpl.
  - case_decide as Hsid; simpl.
    + by rewrite option_guard_False by (simpl; tauto).
    + by rewrite option_guard_True.
  - by case_decide.
Qed.

End DeleteFacts.



Lemma createSession_invalid_id_witness :
  WhatsAppManager.createSession (WhatsAppSession.class Scenario.healthy)
                                "my session" (mkOptions VUndefined VUndefined)
                                Scenario.one_session
  = (Returned (WhatsAppManager.mkResult false WhatsAppManager.invalid_id None),
     Scenario.one_session).
Proof.
  apply (createSession_invalid_id (WhatsAppSession.class Scenario.healthy)
                                  "my session").
  right. exists " "%char. split; [|reflexivity].
  simpl. do 2 apply list_elem_of_further. apply list_elem_of_here.
Defined.

(** ** WhatsAppManager.js: start-up *)

Section RestoreFacts.
Import WhatsAppManager.
Context {H W Info : Type} (S : SessionClass H W Info).
Implicit Types (m : Manager H W) (ids : list string).

Lemma set_add_NoDup (x : string) (s : list string) :
  NoDup s -> NoDup (set_add x s).
Proof.
  intros Hs. unfold set_add. case_bool_decide; [done|].
  apply NoDup_app. split; [done|]. split; [|apply NoDup_singleton].
  intros y Hy Hy'. apply list_elem_of_singleton in Hy'. by subst.
Qed.

Lemma directories_NoDup (acc : list string) (dirs : list (string * Outcome bool))
      ids :
  directories acc dirs = Returned ids -> NoDup acc -> NoDup ids.
Proof.
  revert acc. induction dirs as [|[d [isdir|e]] dirs IH]; intros acc; simpl.
  - by intros [= <-].
  - intros Hrun Hacc. apply (IH _ Hrun).
    destruct isdir; [by apply set_add_NoDup | done].
  - discriminate.
Qed.

Lemma catalog_ids_NoDup m : NoDup (catalog_ids [] m).1.
Proof.
  unfold catalog_ids. destruct (useSupabase m); [|apply NoDup_nil_2].
  destruct (catalog m) as [[[rows|] [e|]]|e]; simpl; try apply NoDup_nil_2.
  generalize (NoDup_nil_2 (A:=string)). generalize (@nil string) as acc.
  induction rows as [|r rows IH]; intros acc Hacc; simpl; [done|].
  apply IH. by apply set_add_NoDup.
Qed.

Lemma discover_NoDup m ids : (discover m).1 = Returned ids -> NoDup ids.
Proof.
  unfold discover. pose proof (catalog_ids_NoDup m) as Hc.
  destruct (catalog_ids [] m) as [ids1 m1]. simpl in Hc.
  unfold folder_ids. destruct (sessionsFolder m1) as [[u|e]|[dirs|e]]; simpl.
  - by intros [= <-].
  - discriminate.
  - intros Hrun. by apply (directories_NoDup _ _ _ Hrun).
  - discriminate.
Qed.

(** The discovery prints and may make the folder; it leaves the map, the
    world and the handles alone. *)
Lemma discover_frame m :
  sessions (discover m).2 = sessions m /\
  world (discover m).2 = world m /\
  (forall id, constructions id (journal (discover m).2)
              = constructions id (journal m)).
Proof.
  assert (forall id (e : Event) (j : list Event),
             (forall x, e <> Constructed x) ->
             constructions id (j ++ [e]) = constructions id j) as Hlog.
  { intros id e j He. unfold constructions.
    rewrite filter_app, filter_cons_False by apply He.
    by rewrite filter_nil, app_nil_r. }
  unfold discover, catalog_ids, folder_ids.
  destruct (useSupabase m); [destruct (catalog m) as [[[rows|] [e|]]|e]|]; simpl;
    destruct (sessionsFolder m) as [[u|e']|[dirs|e']]; simpl;
    (split; [done|]); (split; [done|]); intros id; try done;
    by apply Hlog.
Qed.

(** The loop runs through a prefix [done] of the ids: those are
    constructed, registered and asked to connect; it stops behind the
    first one whose [connect] throws and leaves the rest untouched. *)
Lemma restore_prefix ids m :
  exists done skipped : list string,
    ids = done ++ skipped /\
    journal (restore S ids m).2 = journal m ++ restore_events done /\
    (forall id, id ∈ done -> is_Some (JsMap.get id (sessions (restore S ids m).2))) /\
    (forall id, id ∉ done ->
                JsMap.get id (sessions (restore S ids m).2) = JsMap.get id (sessions m)) /\
    match (restore S ids m).1 with
    | Returned _ => skipped = []
    | Threw _ => done <> []
    end.
Proof.
  revert m. induction ids as [|id rest IH]; intros m.
  - exists [], []. simpl. rewrite app_nil_r. split_and!; try done.
    intros id Hid. by apply elem_of_nil in Hid.
  - simpl.
    destruct (connect S _ _) as [[r session'] w'] eqn:Hconn.
    set (m4 := with_world w' _).
    assert (journal m4 = journal m ++ restore_events [id]) as Hj.
    { subst m4. simpl. by rewrite <- !app_assoc. }
    assert (JsMap.get id (sessions m4) = Some session') as Hid.
    { subst m4. simpl. apply jsmap_get_set_eq. }
    assert (forall x, x <> id -> JsMap.get x (sessions m4) = JsMap.get x (sessions m))
      as Hother.
    { intros x Hx. subst m4. simpl.
      rewrite !jsmap_get_set_ne by congruence. done. }
    destruct r as [u|e].
    + destruct (IH m4) as (done & skipped & -> & Hjournal & Hdone & Hrest & Hend).
      exists (id :: done), skipped.
      split; [done|]. split; [|split; [|split]].
      * rewrite Hjournal, Hj. unfold restore_events. simpl.
        by rewrite <- !app_assoc.
      * intros x Hx. destruct (decide (x ∈ done)) as [Hin|Hnin]; [by apply Hdone|].
        apply elem_of_cons in Hx as [->|Hx]; [|done].
        rewrite (Hrest _ Hnin), Hid. by eexists.
      * intros x Hx. apply not_elem_of_cons in Hx as [Hne Hx].
        rewrite (Hrest _ Hx). by apply Hother.
      * destruct (restore S (done ++ skipped) m4).1; [exact Hend | discriminate].
    + exists [id], rest.
      split; [done|]. split; [exact Hj|]. split; [|split; [|discriminate]].
      * intros x Hx. apply list_elem_of_singleton in Hx. subst x.
        change (is_Some (JsMap.get id (sessions m4))). rewrite Hid. by eexists.
      * intros x Hx. apply (Hother x). intros ->. apply Hx. apply list_elem_of_here.
Qed.

Lemma restore_returns ids m :
  (forall h w, returns (connect S h w).1.1) ->
  exists u, (restore S ids m).1 = Returned u.
Proof.
  intros Hok. revert m. induction ids as [|id rest IH]; intros m; simpl.
  - by exists tt.
  - destruct (connect S _ _) as [[r session'] w'] eqn:Hconn.
    pose proof (Hok (construct S id (mkOptions VUndefined VUndefined)
                               (world (emit (LogRestoring id) m)))
                    (world (emit (LogRestoring id) m))) as Hr.
    simpl in Hr, Hconn. rewrite Hconn in Hr. simpl in Hr.
    destruct r as [u|e]; [apply IH | done].
Qed.

(** The loop over a list in two parts: the second part is reached when
    the first part has run through. *)
Lemma restore_app (pre rest : list string) m :
  restore S (pre ++ rest) m
  = match restore S pre m with
    | (Returned _, m') => restore S rest m'
    | (Threw e, m') => (Threw e, m')
    end.
Proof.
  revert m. induction pre as [|id pre IH]; intros m; simpl; [done|].
  destruct (connect S _ _) as [[[u|e] session'] w']; [apply IH | done].
Qed.

(** A loop that has run through has taken every id. *)
Lemma restore_through ids m :
  returns (restore S ids m).1 ->
  journal (restore S ids m).2 = journal m ++ restore_events ids /\
  (forall id, id ∈ ids -> is_Some (JsMap.get id (sessions (restore S ids m).2))) /\
  (forall id, id ∉ ids ->
              JsMap.get id (sessions (restore S ids m).2) = JsMap.get id (sessions m)).
Proof.
  intros Hret.
  destruct (restore_prefix ids m) as (done & skipped & Hids & Hj & Hdone & Hrest & Hend).
  destruct (restore S ids m).1 as [u|e]; [|done].
  subst skipped. rewrite app_nil_r in Hids. by subst done.
Qed.

(** When every [connect()] that the loop reaches returns, the loop runs
    through. *)
Lemma restore_returns_run ids m :
  (forall pre x post,
      ids = pre ++ x :: post ->
      returns (restore S pre m).1 -> returns (first_connect S x (restore S pre m).2)) ->
  returns (restore S ids m).1.
Proof.
  induction ids as [|x ids IH] using rev_ind; intros Hok; [done|].
  assert (returns (restore S ids m).1) as Hpre.
  { apply IH. intros pre y post -> Hret.
    apply (Hok pre y (post ++ [x])); [by rewrite <- app_assoc | done]. }
  specialize (Hok ids x [] eq_refl Hpre).
  rewrite restore_app. destruct (restore S ids m) as [[u|e] mp]; [|done].
  unfold first_connect in Hok. simpl in *.
  by destruct (connect S _ _) as [[[u'|e'] session'] w'].
Qed.

Lemma constructions_restore_events (id : string) (ids : list string)
      (j : list Event) :
  id ∉ ids -> constructions id (j ++ restore_events ids) = constructions id j.
Proof.
  intros Hid. unfold constructions. rewrite filter_app.
  assert (filter (fun e => e = Constructed id) (restore_events ids) = []) as ->;
    [|by rewrite app_nil_r].
  induction ids as [|x ids IH]; [done|].
  apply not_elem_of_cons in Hid as [Hne Hid]. unfold restore_events. simpl.
  rewrite filter_cons_False by discriminate.
  rewrite filter_cons_False by congruence.
  rewrite filter_cons_False by discriminate.
  by apply IH.
Qed.

(** C2, as the code has it.  [initExistingSessions] never throws.  When
    a call of [fs] throws during the discovery, the handler around the
    whole body prints the exception and no session is restored.
    Otherwise the discovered ids are taken one after the other, and:

    - a [connect()] that throws ends the loop: when the loop reaches [x]
      after the ids [pre], and the [connect()] of [x] throws, the sessions
      of [pre] and [x] are registered and were asked to connect, the
      exception is printed, and the ids discovered after [x] are neither
      constructed nor registered nor asked to connect;
    - when every [connect()] that the loop reaches returns, whatever it
      leaves of its handle, every discovered session is registered and
      was asked to connect, and the number of sessions is printed. *)
Theorem initExistingSessions_restores m :
  match (discover m).1 with
  | Threw e =>
      sessions (initExistingSessions S m) = sessions m /\
      world (initExistingSessions S m) = world m /\
      journal (initExistingSessions S m)
      = journal (discover m).2 ++ [LogErrorInitializing e]
  | Returned ids =>
      (forall (pre : list string) (x : string) (post : list string) (e : string),
          ids = pre ++ x :: post ->
          returns (restore S pre (discover m).2).1 ->
          first_connect S x (restore S pre (discover m).2).2 = Threw e ->
          journal (initExistingSessions S m)
          = journal (discover m).2 ++ restore_events (pre ++ [x])
                    ++ [LogErrorInitializing e] /\
          (forall id, id ∈ pre ++ [x] ->
                      is_Some (getSession id (initExistingSessions S m))) /\
          (forall id, id ∈ post ->
                      getSession id (initExistingSessions S m) = getSession id m /\
                      constructions id (journal (initExistingSessions S m))
                      = constructions id (journal m))) /\
      ((forall (pre : list string) (x : string) (post : list string),
           ids = pre ++ x :: post ->
           returns (restore S pre (discover m).2).1 ->
           returns (first_connect S x (restore S pre (discover m).2).2)) ->
       journal (initExistingSessions S m)
       = journal (discover m).2 ++ restore_events ids ++ [LogRestored (length ids)] /\
       (forall id, id ∈ ids -> is_Some (getSession id (initExistingSessions S m))) /\
       (forall id, id ∉ ids ->
                   getSession id (initExistingSessions S m) = getSession id m))
  end.
Proof.
  destruct (discover_frame m) as (Hsess & Hworld & Hcons).
  pose proof (discover_NoDup m) as Hnd.
  unfold initExistingSessions, getSession.
  destruct (discover m) as [[ids|e] m2]; simpl in *; [|done].
  specialize (Hnd ids eq_refl). split.
  - intros pre x post e -> Hpre Hthrew.
    pose proof (restore_through pre m2 Hpre) as (Hj & Hdone & Hrest).
    rewrite restore_app.
    destruct (restore S pre m2) as [[u|e'] mp]; [|done]. simpl in *.
    unfold first_connect in Hthrew.
    destruct (connect S _ _) as [[r session'] w']. simpl in Hthrew. subst r. simpl.
    apply NoDup_app in Hnd as (_ & Hpre_post & Hpost).
    apply NoDup_cons in Hpost as [Hx Hpost].
    split_and!.
    + rewrite Hj. unfold restore_events. rewrite flat_map_app. simpl.
      by rewrite <- !app_assoc.
    + intros id Hid. destruct (decide (id = x)) as [->|Hne].
      * rewrite jsmap_get_set_eq. by eexists.
      * rewrite !jsmap_get_set_ne by congruence. apply Hdone.
        apply elem_of_app in Hid as [Hid|Hid]; [done|].
        by apply list_elem_of_singleton in Hid.
    + intros id Hid.
      assert (id ∉ pre) as Hnpre.
      { intros Hin. apply (Hpre_post id Hin). by apply list_elem_of_further. }
      assert (id <> x) as Hne by (by intros ->).
      split.
      * rewrite !jsmap_get_set_ne by congruence. by rewrite (Hrest id Hnpre), Hsess.
      * replace (((journal mp ++ [LogRestoring x]) ++ [Constructed x])
                   ++ [ConnectCalled x])
          with (journal mp ++ restore_events [x])
          by (unfold restore_events; simpl; by rewrite <- !app_assoc).
        rewrite Hj.
        unfold constructions. rewrite filter_app, filter_cons_False by discriminate.
        rewrite filter_nil, app_nil_r.
        fold (constructions id ((journal m2 ++ restore_events pre)
                                  ++ restore_events [x])).
        rewrite !constructions_restore_events; [apply Hcons | done |].
        by intros Hin%list_elem_of_singleton.
  - intros Hok. pose proof (restore_returns_run ids m2 Hok) as Hret.
    pose proof (restore_through ids m2 Hret) as (Hj & Hdone & Hrest).
    destruct (restore S ids m2) as [[u|e] m3]; [|done]. simpl in *.
    split_and!.
    + rewrite Hj. by rewrite <- app_assoc.
    + done.
    + intros id Hid. by rewrite (Hrest id Hid), Hsess.
Qed.

End RestoreFacts.

Lemma initExistingSessions_restores_witness :
  (forall id, id ∈ ["alpha"; "beta"] ->
     is_Some (WhatsAppManager.getSession id
                (WhatsAppManager.initExistingSessions
                   (WhatsAppSession.class Scenario.healthy)
                   Scenario.two_directories))) /\
  WhatsAppManager.journal
    (WhatsAppManager.initExistingSessions
       (WhatsAppSession.class Scenario.refusing_alpha) Scenario.two_directories)
  = WhatsAppManager.restore_events ["alpha"]
      ++ [WhatsAppManager.LogErrorInitializing "Connection Failure"] /\
  WhatsAppManager.getSession
    "beta"
    (WhatsAppManager.initExistingSessions
       (WhatsAppSession.class Scenario.refusing_alpha) Scenario.two_directories)
  = None.
Proof.
  split.
  - pose proof (initExistingSessions_restores (WhatsAppSession.class Scenario.healthy)
                                              Scenario.two_directories) as [_ Hall].
    apply Hall. intros pre x post _ _. exact I.
  - pose proof (initExistingSessions_restores
                  (WhatsAppSession.class Scenario.refusing_alpha)
                  Scenario.two_directories) as [Hstop _].
    destruct (Hstop [] "alpha" ["beta"] "Connection Failure" eq_refl I eq_refl)
      as (Hjournal & _ & Hpost).
    split; [exact Hjournal|].
    apply (Hpost "beta"). apply list_elem_of_here.
Defined.

(** C2, as the specification words it, fails: with the directories [alpha]
    and [beta] and an engine that refuses [alpha], the exception of the
    first [connect()] ends the loop and [beta] is never registered. *)
Lemma restore_not_isolated :
  ~ WhatsAppManager.restore_isolated (WhatsAppSession.class Scenario.refusing_alpha)
                                     Scenario.two_directories.
Proof.
  intros Hiso. destruct (Hiso ["alpha"; "beta"] "beta" eq_refl) as [[h Hh] _].
  - apply list_elem_of_further, list_elem_of_here.
  - vm_compute in Hh. discriminate.
Qed.

(** ** WhatsAppManager.js: one handle per id *)

Section CreateFacts.
Import WhatsAppManager.
Context {H W Info : Type} (S : SessionClass H W Info).
Implicit Types (m : Manager H W) (h : H) (id : string).

Lemma constructions_snoc_other id (j : list Event) (e : Event) :
  e <> Constructed id -> constructions id (j ++ [e]) = constructions id j.
Proof.
  intros He. unfold constructions.
  rewrite filter_app, length_app, filter_cons_False by done.
  simpl. lia.
Qed.

Lemma constructions_snoc_same id (j : list Event) :
  constructions id (j ++ [Constructed id]) = Datatypes.S (constructions id j).
Proof.
  unfold constructions.
  rewrite filter_app, length_app, filter_cons_True by done.
  simpl. lia.
Qed.

Lemma valid_id_passes id :
  regex_test id = true -> String.eqb id "" || negb (regex_test id) = false.
Proof.
  intros Hv. rewrite Hv. unfold regex_test in Hv.
  apply andb_true_iff in Hv as [Hne _].
  apply negb_true_iff in Hne. by rewrite Hne.
Qed.

(** What [update_existing] leaves of the manager. *)
Lemma update_existing_effect id options existing m :
  JsMap.get id (sessions m) = Some existing ->
  let hm := update_existing S id options existing m in
  JsMap.get id (sessions hm.2) = Some hm.1 /\
  JsMap.keys (sessions hm.2) = JsMap.keys (sessions m) /\
  constructions id (journal hm.2) = constructions id (journal m).
Proof.
  intros Hget. unfold update_existing.
  destruct (truthy _ || truthy _); [|done].
  destruct (updateConfig S options existing (world m)) as [h w]. simpl.
  split; [apply jsmap_get_set_eq|]. split.
  - apply jsmap_keys_set_present. by eapply jsmap_get_Some_keys.
  - by apply constructions_snoc_other.
Qed.

(** A call for an id that has a handle constructs nothing: it answers
    with the snapshot of a connected handle or asks the handle to
    connect. *)
Lemma createSession_existing id options m existing :
  regex_test id = true ->
  getSession id m = Some existing ->
  let '(h, m1) := update_existing S id options existing m in
  if String.eqb (connectionStatus S h) "connected"
  then createSession S id options m
       = (Returned (mkResult false "Session already connected" (Some (getInfo S h))),
          m1)
  else
    let '(r, h2, w2) := connect S h (world m1) in
    createSession S id options m
    = (match r with
       | Returned _ => Returned (mkResult true "Reconnecting existing session"
                                          (Some (getInfo S h2)))
       | Threw e => Threw e
       end,
       mkManager (JsMap.set id h2 (sessions m1)) (useSupabase m1) (catalog m1)
                 (sessionsFolder m1) (journal m1 ++ [ConnectCalled id]) w2).
Proof.
  intros Hv Hget. unfold createSession, getSession in *.
  rewrite (valid_id_passes _ Hv), Hget.
  destruct (update_existing S id options existing m) as [h m1].
  destruct (String.eqb (connectionStatus S h) "connected"); [done|].
  destruct (connect S h (world m1)) as [[r h2] w2].
  by destruct r.
Qed.

(** After a call with a valid id the id has a handle, whatever the
    outcome of the call, and at most one handle was constructed. *)
Lemma createSession_effect id options m :
  regex_test id = true ->
  let m' := (createSession S id options m).2 in
  is_Some (getSession id m') /\
  JsMap.keys (sessions m')
  = (if decide (id ∈ JsMap.keys (sessions m)) then JsMap.keys (sessions m)
     else JsMap.keys (sessions m) ++ [id]) /\
  constructions id (journal m')
  = (constructions id (journal m)
     + if decide (id ∈ JsMap.keys (sessions m)) then 0 else 1)%nat.
Proof.
  intros Hv. destruct (JsMap.get id (sessions m)) as [existing|] eqn:Hget.
  - pose proof (jsmap_get_Some_keys _ _ _ Hget) as Hin.
    do 2 rewrite decide_True by done.
    pose proof (createSession_existing id options m existing Hv Hget) as Hc.
    pose proof (update_existing_effect id options existing m Hget) as (Hg & Hk & Hn).
    destruct (update_existing S id options existing m) as [h m1]. simpl in *.
    destruct (String.eqb (connectionStatus S h) "connected").
    + rewrite Hc. simpl. unfold getSession. rewrite Hg, Hk, Hn.
      split; [by eexists|]. split; [done | lia].
    + destruct (connect S h (world m1)) as [[r h2] w2]. rewrite Hc. simpl.
      unfold getSession; simpl. rewrite jsmap_get_set_eq.
      split; [by eexists|]. split.
      * rewrite jsmap_keys_set_present by (by rewrite Hk). done.
      * rewrite constructions_snoc_other by done. lia.
  - pose proof (proj1 (jsmap_get_None _ _) Hget) as Hin.
    do 2 rewrite decide_False by done.
    unfold createSession. rewrite (valid_id_passes _ Hv), Hget. simpl.
    destruct (_saveConfig S _ _) as [session1 w1]. simpl.
    destruct (connect S session1 w1) as [[r session2] w2].
    assert (forall (o : Outcome (Result Info)) (mm : Manager H W),
               is_Some (getSession id mm) ->
               JsMap.keys (sessions mm) = JsMap.keys (sessions m) ++ [id] ->
               constructions id (journal mm)
               = (constructions id (journal m) + 1)%nat ->
               is_Some (getSession id (o, mm).2) /\
               JsMap.keys (sessions (o, mm).2) = JsMap.keys (sessions m) ++ [id] /\
               constructions id (journal (o, mm).2)
               = (constructions id (journal m) + 1)%nat) as Hpack by done.
    destruct r; apply Hpack; unfold getSession; simpl;
      try (rewrite jsmap_get_set_eq; by eexists);
      try (rewrite jsmap_keys_set_present
             by (rewrite jsmap_keys_set_absent by done;
                 apply elem_of_app; right; apply list_elem_of_here);
           by apply jsmap_keys_set_absent);
      rewrite !constructions_snoc_other by done;
      rewrite constructions_snoc_same; lia.
Qed.

(** C6. Two calls of [createSession] in a row for a valid id.  The second
    call constructs no handle, so that both calls together construct at
    most one; the map holds exactly one handle for the id afterwards.  The
    second call finds the handle [existing], merges its options into it,
    and then either answers with the failure that carries the snapshot of
    the handle, when its status is ['connected'], or calls [connect()] on
    it and answers with the success ['Reconnecting existing session']; an
    exception of that [connect()] goes to the caller. *)
Theorem createSession_twice id (o1 o2 : Options) m :
  regex_test id = true ->
  NoDup (JsMap.keys (sessions m)) ->
  let m1 := (createSession S id o1 m).2 in
  let r2 := (createSession S id o2 m1).1 in
  let m2 := (createSession S id o2 m1).2 in
  constructions id (journal m2) = constructions id (journal m1) /\
  (constructions id (journal m2) <= Datatypes.S (constructions id (journal m)))%nat /\
  registered id (sessions m2) = 1%nat /\
  exists existing : H,
    getSession id m1 = Some existing /\
    let '(h, m1') := update_existing S id o2 existing m1 in
    if String.eqb (connectionStatus S h) "connected"
    then r2 = Returned (mkResult false "Session already connected"
                                 (Some (getInfo S h))) /\
         m2 = m1'
    else
      let '(r, h2, w2) := connect S h (world m1') in
      journal m2 = journal m1' ++ [ConnectCalled id] /\
      getSession id m2 = Some h2 /\
      r2 = match r with
           | Returned _ => Returned (mkResult true "Reconnecting existing session"
                                              (Some (getInfo S h2)))
           | Threw e => Threw e
           end.
Proof.
  intros Hv Hnd m1 r2 m2.
  destruct (createSession_effect id o1 m Hv) as ([existing Hex] & Hk1 & Hn1).
  fold m1 in Hex, Hk1, Hn1.
  assert (id ∈ JsMap.keys (sessions m1)) as Hin1
      by (by eapply jsmap_get_Some_keys).
  assert (NoDup (JsMap.keys (sessions m1))) as Hnd1.
  { rewrite Hk1. case_decide; [done|].
    apply NoDup_app. split; [done|]. split; [|apply NoDup_singleton].
    intros x Hx Hx'. apply list_elem_of_singleton in Hx'. by subst. }
  destruct (createSession_effect id o2 m1 Hv) as (_ & Hk2 & Hn2).
  fold m2 in Hk2, Hn2. rewrite decide_True in Hk2 by done.
  rewrite decide_True in Hn2 by done.
  split; [lia|]. split; [case_decide; lia|]. split.
  { apply registered_NoDup; by rewrite Hk2. }
  exists existing. split; [done|].
  pose proof (createSession_existing id o2 m1 existing Hv Hex) as Hc.
  destruct (update_existing S id o2 existing m1) as [h m1'].
  destruct (String.eqb (connectionStatus S h) "connected").
  - subst r2 m2. by rewrite Hc.
  - destruct (connect S h (world m1')) as [[r h2] w2].
    subst r2 m2. rewrite Hc. simpl. split; [done|]. split; [|done].
    unfold getSession; simpl. apply jsmap_get_set_eq.
Qed.

End CreateFacts.

Lemma createSession_twice_witness :
  (WhatsAppManager.constructions "alpha"
     (WhatsAppManager.journal
        (WhatsAppManager.createSession (WhatsAppSession.class Scenario.healthy) "alpha"
           (mkOptions VUndefined VUndefined)
           (WhatsAppManager.createSession (WhatsAppSession.class Scenario.healthy)
              "alpha" (mkOptions VUndefined VUndefined) Scenario.fresh_manager).2).2)
   <= 1)%nat /\
  WhatsAppManager.registered "alpha"
     (WhatsAppManager.sessions
        (WhatsAppManager.createSession (WhatsAppSession.class Scenario.healthy) "alpha"
           (mkOptions VUndefined VUndefined)
           (WhatsAppManager.createSession (WhatsAppSession.class Scenario.healthy)
              "alpha" (mkOptions VUndefined VUndefined) Scenario.fresh_manager).2).2)
  = 1%nat.
Proof.
  destruct (createSession_twice (WhatsAppSession.class Scenario.healthy) "alpha"
              (mkOptions VUndefined VUndefined) (mkOptions VUndefined VUndefined)
              Scenario.fresh_manager eq_refl (NoDup_nil_2 (A:=string)))
    as (_ & Hle & Hreg & _).
  split; [exact Hle | exact Hreg].
Defined.

(** ** SupabaseAuthState.js: the key store *)

Section FlightFacts.
Context {A : Type}.

Lemma insert_ranked_Permutation (rank : nat -> nat) (x : nat * A)
      (l : list (nat * A)) :
  insert_ranked rank x l ≡ₚ x :: l.
Proof.
  induction l as [|y l IH]; simpl; [done|].
  destruct (rank x.1 <=? rank y.1)%nat; [done|].
  rewrite IH. apply Permutation_swap.
Qed.

(** An order of service is an order of the requests that were started:
    none is lost and none is served twice. *)
Lemma arrange_Permutation (rank : nat -> nat) (l : list A) : arrange rank l ≡ₚ l.
Proof.
  unfold arrange.
  assert (forall k : list (nat * A), foldr (insert_ranked rank) [] k ≡ₚ k) as Hsort.
  { induction k as [|x k IH]; simpl; [done|].
    by rewrite insert_ranked_Permutation, IH. }
  rewrite Hsort. rewrite snd_zip; [done|]. by rewrite length_seq.
Qed.

Lemma arrange_elem_of (rank : nat -> nat) (l : list A) (x : A) :
  x ∈ arrange rank l <-> x ∈ l.
Proof. by rewrite arrange_Permutation. Qed.

End FlightFacts.

Section JsonFacts.

Lemma json_truthy (v : Value) : truthy (json v) = truthy v.
Proof. by destruct v. Qed.

Lemma json_plain : forall v : Value, plain v = true -> json v = v.
Proof.
  fix IH 1. intros [ | |b|n|s|bs|xs|fields]; simpl; try done.
  - intros Hxs. f_equal. induction xs as [|x xs IHxs]; simpl in *; [done|].
    apply andb_true_iff in Hxs as [Hx Hxs].
    f_equal; [by apply IH | by apply IHxs].
  - intros Hfs. f_equal. induction fields as [|[k x] fields IHfs]; simpl in *; [done|].
    apply andb_true_iff in Hfs as [Hx Hfs].
    rewrite (IH x Hx), (IHfs Hfs). by destruct x.
Qed.

End JsonFacts.

Section AdapterFacts.
Import SupabaseAuthState.
Context (X : External).
Implicit Types (a : AuthState) (w : World) (t : string * string * Value).

(** What [readData] returns in terms of the table and of the fate of the
    request. *)
Lemma readData_spec (sessionId keyId : string) w :
  readData X sessionId keyId w
  = match db_fault X (Select sessionId keyId) with
    | NoFault => default VNull (auth_keys w !! (sessionId, keyId))
    | ErrorResult _ | Throws _ => VNull
    end.
Proof.
  unfold readData, select_single.
  destruct (db_fault X (Select sessionId keyId)); [|done..].
  by destruct (auth_keys w !! (sessionId, keyId)).
Qed.

(** A served upsert of a truthy value puts its JSON image in the row. *)
Lemma upsert_served (sessionId keyId : string) (v : Value) w :
  db_fault X (Upsert sessionId keyId) = NoFault ->
  truthy v = true ->
  upsert X sessionId keyId v w
  = (Returned (mkAnswer None None),
     set_auth_keys (<[(sessionId, keyId) := json v]> (auth_keys w)) w).
Proof.
  intros Hok Htruthy. unfold upsert. rewrite Hok.
  pose proof (json_truthy v) as Hj. rewrite Htruthy in Hj.
  by destruct (json v).
Qed.

(** An upsert touches no row but its own, and nothing but the table. *)
Lemma upsert_frame (sessionId keyId : string) (v : Value) w :
  (forall row, row <> (sessionId, keyId) ->
               auth_keys (upsert X sessionId keyId v w).2 !! row = auth_keys w !! row) /\
  console (upsert X sessionId keyId v w).2 = console w /\
  entropy (upsert X sessionId keyId v w).2 = entropy w /\
  supabaseClient (upsert X sessionId keyId v w).2 = supabaseClient w.
Proof.
  unfold upsert. destruct (db_fault X (Upsert sessionId keyId)); [|done..].
  destruct (json v); simpl; split_and!; try done;
    intros row Hrow; by apply lookup_insert_ne.
Qed.

(** *** [keys.get] *)

Lemma assign_other (i id : string) (v : Value) (d : KeyData) :
  id <> "__proto__" ->
  own (assign i v d) !! id = if decide (i = id) then Some v else own d !! id.
Proof.
  intros Hid. unfold assign.
  destruct (String.eqb i "__proto__") eqn:Ei; simpl.
  - apply String.eqb_eq in Ei. subst i.
    rewrite decide_False by congruence.
    destruct (negb _); [by destruct v|]. simpl. by rewrite lookup_insert_ne.
  - case_decide as Heq.
    + subst. apply lookup_insert_eq.
    + by apply lookup_insert_ne.
Qed.

Lemma assign_fold a (type : string) (ids : list string) w (d : KeyData)
      (id : string) :
  id <> "__proto__" ->
  own (foldl (fun data i => assign i (get_one X a type i w) data) d ids) !! id
  = if decide (id ∈ ids) then Some (get_one X a type id w) else own d !! id.
Proof.
  intros Hid. revert d. induction ids as [|i ids IH]; intros d; simpl; [done|].
  rewrite IH, assign_other by done.
  destruct (decide (id ∈ ids)) as [Hin|Hnin].
  - rewrite decide_True; [done | by apply list_elem_of_further].
  - destruct (decide (i = id)) as [->|Hne].
    + by rewrite decide_True by apply list_elem_of_here.
    + rewrite decide_False; [done|].
      intros [->|Hin]%elem_of_cons; done.
Qed.

Lemma keys_get_own a (type : string) (ids : list string) w (id : string) :
  id <> "__proto__" ->
  own (keys_get X a type ids w) !! id
  = if decide (id ∈ ids) then Some (get_one X a type id w) else None.
Proof.
  intros Hid. unfold keys_get. rewrite assign_fold by done. simpl.
  rewrite lookup_empty. apply decide_ext. by rewrite arrange_elem_of.
Qed.

(** Without ['__proto__'] among the ids, nothing happens to the
    prototype and to the entry of that name. *)
Lemma assign_fold_no_proto a (type : string) (ids : list string) w (d : KeyData) :
  "__proto__" ∉ ids ->
  own (foldl (fun data i => assign i (get_one X a type i w) data) d ids)
  !! "__proto__" = own d !! "__proto__" /\
  prototype (foldl (fun data i => assign i (get_one X a type i w) data) d ids)
  = prototype d.
Proof.
  revert d. induction ids as [|i ids IH]; intros d Hnin; simpl; [done|].
  apply not_elem_of_cons in Hnin as [Hne Hnin].
  destruct (IH (assign i (get_one X a type i w) d) Hnin) as [-> ->].
  unfold assign. assert (String.eqb i "__proto__" = false) as ->
      by (apply String.eqb_neq; congruence).
  simpl. split; [|done]. apply lookup_insert_ne. congruence.
Qed.

(** A ['__proto__'] that is requested once makes no entry. *)
Lemma assign_fold_proto_once a (type : string) (ids : list string) w (d : KeyData) :
  NoDup ids ->
  prototype d = ObjectPrototype ->
  own (foldl (fun data i => assign i (get_one X a type i w) data) d ids)
  !! "__proto__" = own d !! "__proto__".
Proof.
  revert d. induction ids as [|i ids IH]; intros d Hnd Hproto; simpl; [done|].
  apply NoDup_cons in Hnd as [Hi Hnd].
  destruct (String.eqb i "__proto__") eqn:Ei.
  - apply String.eqb_eq in Ei. subst i.
    destruct (assign_fold_no_proto a type ids w
                (assign "__proto__" (get_one X a type "__proto__" w) d) Hi) as [-> _].
    unfold assign. rewrite Hproto. simpl.
    by destruct (get_one X a type "__proto__" w).
  - rewrite IH; [|done|].
    + unfold assign. rewrite Ei. simpl. apply lookup_insert_ne.
      apply String.eqb_neq in Ei. congruence.
    + unfold assign. by rewrite Ei.
Qed.

Lemma prototype_fold a (type : string) (ids : list string) w (d : KeyData) :
  prototype d = ObjectPrototype \/
  prototype d = PrototypeSet (get_one X a type "__proto__" w) ->
  prototype (foldl (fun data i => assign i (get_one X a type i w) data) d ids)
  = if decide ("__proto__" ∈ ids)
    then match get_one X a type "__proto__" w with
         | VNull | VBytes _ | VArr _ | VObj _ =>
             PrototypeSet (get_one X a type "__proto__" w)
         | _ => prototype d
         end
    else prototype d.
Proof.
  revert d. induction ids as [|i ids IH]; intros d Hd; simpl; [done|].
  destruct (String.eqb i "__proto__") eqn:Ei.
  - apply String.eqb_eq in Ei. subst i.
    rewrite (decide_True (P := "__proto__" ∈ "__proto__" :: ids))
      by apply list_elem_of_here.
    set (v := get_one X a type "__proto__" w) in *. clearbody v.
    assert (prototype (assign "__proto__" v d)
            = match v with
              | VNull | VBytes _ | VArr _ | VObj _ => PrototypeSet v
              | _ => prototype d
              end) as Hstep.
    { unfold assign. simpl.
      destruct Hd as [Hd | Hd]; rewrite Hd; simpl.
      - destruct v; simpl; congruence.
      - destruct (hides_accessor v) eqn:Hh; simpl; destruct v; simpl; congruence. }
    rewrite IH.
    + rewrite Hstep. case_decide; by destruct v.
    + rewrite Hstep. destruct v; simpl; tauto.
  - apply String.eqb_neq in Ei.
    assert (prototype (assign i (get_one X a type i w) d) = prototype d) as Hstep.
    { unfold assign. assert (String.eqb i "__proto__" = false) as ->
          by (by apply String.eqb_neq). done. }
    rewrite IH by (by rewrite Hstep). rewrite Hstep. apply decide_ext.
    rewrite elem_of_cons. split; [tauto | intros [?|?]; [congruence | done]].
Qed.

(** C7, as the code has it.  The result of [keys.get(type, ids)] has an
    own entry for every requested id other than ['__proto__'], and for no
    other id of that kind.  The entry of such an id is decided by the
    request for that id alone: [null] when the request answers with an
    error or throws, or when there is no row; otherwise the stored value,
    passed through [fromObject] when [type] is ['app-state-sync-key'] (and
    the value is not falsy) and returned as it is for every other type.  A
    ['__proto__'] that is requested once gets no entry.  What was read for
    a requested ['__proto__'] becomes the prototype of the result when it
    is an object or [null]. *)
Theorem keys_get_entries a (type : string) (ids : list string) w :
  (forall id : string,
      id <> "__proto__" ->
      (is_Some (own (keys_get X a type ids w) !! id) <-> id ∈ ids)) /\
  (forall id : string,
      id ∈ ids -> id <> "__proto__" ->
      own (keys_get X a type ids w) !! id
      = Some match db_fault X (Select (auth_sessionId a) (keyId_of type id)) with
             | NoFault =>
                 match auth_keys w !! (auth_sessionId a, keyId_of type id) with
                 | Some v =>
                     if String.eqb type "app-state-sync-key" && truthy v
                     then fromObject X v
                     else v
                 | None => VNull
                 end
             | ErrorResult _ | Throws _ => VNull
             end) /\
  (NoDup ids -> own (keys_get X a type ids w) !! "__proto__" = None) /\
  prototype (keys_get X a type ids w)
  = if decide ("__proto__" ∈ ids)
    then match get_one X a type "__proto__" w with
         | VNull | VBytes _ | VArr _ | VObj _ =>
             PrototypeSet (get_one X a type "__proto__" w)
         | _ => ObjectPrototype
         end
    else ObjectPrototype.
Proof.
  split_and!.
  - intros id Hne. rewrite keys_get_own by done. case_decide.
    + split; [done | by eexists].
    + split; [by intros [? ?] | done].
  - intros id Hin Hne. rewrite keys_get_own, decide_True by done. f_equal.
    unfold get_one. rewrite readData_spec.
    destruct (db_fault X (Select _ _)); simpl; try by rewrite andb_false_r.
    destruct (auth_keys w !! _); simpl; [done | by rewrite andb_false_r].
  - intros Hnd. unfold keys_get. rewrite assign_fold_proto_once; [done| |done].
    by rewrite arrange_Permutation.
  - unfold keys_get. rewrite prototype_fold by (by left). simpl.
    apply decide_ext. by rewrite arrange_elem_of.
Qed.

(** *** [keys.set] *)

(** The two steps of a task together are [writeData] or [removeData]. *)
Lemma set_task_steps a t w :
  task_settled X a t (task_served X a t w) = set_task X a t.1.1 t.1.2 t.2 w.
Proof.
  unfold task_settled, task_served, set_task, writeData, removeData.
  destruct (truthy t.2).
  - unfold upsert. destruct (db_fault X (Upsert _ _)); [|done..].
    by destruct (json t.2).
  - by destruct (delete_key X _ _ w) as [[?|?] ?].
Qed.

(** A served request: the row it addresses. *)
Lemma served_row a t w :
  auth_keys (task_served X a t w) !! task_row a t
  = match db_fault X (task_request a t) with
    | NoFault => if truthy t.2 then Some (json t.2) else None
    | ErrorResult _ | Throws _ => auth_keys w !! task_row a t
    end.
Proof.
  unfold task_served, task_request, task_row.
  destruct (truthy t.2) eqn:Htruthy.
  - destruct (db_fault X (Upsert _ _)) eqn:Hf.
    + rewrite upsert_served by done. apply lookup_insert_eq.
    + unfold upsert. by rewrite Hf.
    + unfold upsert. by rewrite Hf.
  - unfold delete_key.
    destruct (db_fault X (Delete _ _)); simpl; [apply lookup_delete_eq | done..].
Qed.

(** A served request: the other rows. *)
Lemma served_other a t w (row : string * string) :
  row <> task_row a t ->
  auth_keys (task_served X a t w) !! row = auth_keys w !! row.
Proof.
  intros Hne. unfold task_served, task_row in *.
  destruct (truthy t.2).
  - by apply upsert_frame.
  - unfold delete_key.
    destruct (db_fault X (Delete _ _)); simpl; [by apply lookup_delete_ne | done..].
Qed.

Lemma served_console a t w : console (task_served X a t w) = console w.
Proof.
  unfold task_served. destruct (truthy t.2).
  - apply upsert_frame.
  - unfold delete_key. by destruct (db_fault X (Delete _ _)).
Qed.

(** An answer that has arrived: the table is left alone and a failed
    upsert is printed. *)
Lemma settled_effect a t w :
  auth_keys (task_settled X a t w) = auth_keys w /\
  console (task_settled X a t w) = console w ++ write_errors X a [t].
Proof.
  unfold task_settled, write_errors, task_request. simpl.
  destruct (truthy t.2) eqn:Htruthy; [|by rewrite app_nil_r].
  destruct (db_fault X (Upsert _ _)) eqn:Hf.
  - rewrite upsert_served by done. cbn. by rewrite ?app_nil_r.
  - unfold upsert. rewrite Hf. cbn. by rewrite ?app_nil_r.
  - unfold upsert. rewrite Hf. cbn. by rewrite ?app_nil_r.
Qed.

Lemma tasks_other a (ts : list (string * string * Value)) w (row : string * string) :
  row ∉ fmap (task_row a) ts ->
  auth_keys (foldl (fun w1 t => task_served X a t w1) w ts) !! row
  = auth_keys w !! row.
Proof.
  revert w. induction ts as [|t ts IH]; intros w Hrow; simpl; [done|].
  simpl in Hrow. apply not_elem_of_cons in Hrow as [Hne Hrow].
  rewrite IH by done. by apply served_other.
Qed.

Lemma tasks_served_console a (ts : list (string * string * Value)) w :
  console (foldl (fun w1 t => task_served X a t w1) w ts) = console w.
Proof.
  revert w. induction ts as [|t ts IH]; intros w; simpl; [done|].
  by rewrite IH, served_console.
Qed.

Lemma tasks_settled a (ts : list (string * string * Value)) w :
  auth_keys (foldl (fun w1 t => task_settled X a t w1) w ts) = auth_keys w /\
  console (foldl (fun w1 t => task_settled X a t w1) w ts)
  = console w ++ write_errors X a ts.
Proof.
  revert w. induction ts as [|t ts IH]; intros w; simpl.
  - by rewrite app_nil_r.
  - destruct (IH (task_settled X a t w)) as [-> ->].
    destruct (settled_effect a t w) as [-> ->].
    split; [done|]. unfold write_errors. simpl.
    by rewrite app_nil_r, <- app_assoc.
Qed.

(** A triple whose row no other triple of the batch addresses: the row
    ends as the request of the triple leaves it, whatever happens to the
    other requests. *)
Lemma tasks_row a (ts : list (string * string * Value)) w t :
  t ∈ ts ->
  NoDup (fmap (task_row a) ts) ->
  auth_keys (foldl (fun w1 t' => task_served X a t' w1) w ts) !! task_row a t
  = match db_fault X (task_request a t) with
    | NoFault => if truthy t.2 then Some (json t.2) else None
    | ErrorResult _ | Throws _ => auth_keys w !! task_row a t
    end.
Proof.
  revert w. induction ts as [|t0 ts IH]; intros w Hin Hnd.
  - by apply elem_of_nil in Hin.
  - simpl in *. apply NoDup_cons in Hnd as [Hfresh Hnd].
    apply elem_of_cons in Hin as [->|Hin].
    + rewrite tasks_other by done. apply served_row.
    + rewrite IH by done.
      destruct (db_fault X (task_request a t)); [done|..];
        apply served_other; intros Heq; apply Hfresh; rewrite <- Heq;
        by apply list_elem_of_fmap_2.
Qed.

(** The table and the console after [keys.set]. *)
Lemma keys_set_table a (data : list (string * list (string * Value))) w :
  auth_keys (keys_set X a data w)
  = auth_keys (foldl (fun w1 t => task_served X a t w1) w
                     (arrange (serve_rank X) (triples data))).
Proof. unfold keys_set, keys_set_run. simpl. apply tasks_settled. Qed.

Lemma keys_set_console a (data : list (string * list (string * Value))) w :
  console (keys_set X a data w)
  = console w ++ write_errors X a (arrange (answer_rank X) (triples data)).
Proof.
  unfold keys_set, keys_set_run. simpl.
  destruct (tasks_settled a (arrange (answer_rank X) (triples data))
              (foldl (fun w1 t => task_served X a t w1) w
                     (arrange (serve_rank X) (triples data)))) as [_ ->].
  by rewrite tasks_served_console.
Qed.

Lemma arranged_rows_NoDup a (rank : nat -> nat) (ts : list (string * string * Value)) :
  NoDup (fmap (task_row a) ts) -> NoDup (fmap (task_row a) (arrange rank ts)).
Proof. intros Hnd. by rewrite arrange_Permutation. Qed.

Lemma keys_set_row a (data : list (string * list (string * Value))) w t :
  t ∈ triples data ->
  NoDup (fmap (task_row a) (triples data)) ->
  auth_keys (keys_set X a data w) !! task_row a t
  = match db_fault X (task_request a t) with
    | NoFault => if truthy t.2 then Some (json t.2) else None
    | ErrorResult _ | Throws _ => auth_keys w !! task_row a t
    end.
Proof.
  intros Hin Hnd. rewrite keys_set_table.
  apply tasks_row; [by apply arrange_elem_of | by apply arranged_rows_NoDup].
Qed.

Lemma keys_set_other a (data : list (string * list (string * Value))) w
      (row : string * string) :
  row ∉ fmap (task_row a) (triples data) ->
  auth_keys (keys_set X a data w) !! row = auth_keys w !! row.
Proof.
  intros Hrow. rewrite keys_set_table. apply tasks_other.
  by rewrite arrange_Permutation.
Qed.

End AdapterFacts.

Section AdapterClaims.
Import SupabaseAuthState.
Context (X : External).
Implicit Types (a : AuthState) (w : World) (t : string * string * Value).



(** C4, as the code has it.  A truthy value written through [keys.set]
    under (category, id), with an id other than ['__proto__'], in a batch
    in which no other triple addresses the same row, and read back through
    [keys.get] for that category and id, with the upsert and the read
    served by the store, comes back as its JSON image: the value itself
    when it is JSON data, and otherwise the value with every [Buffer]
    turned into a plain object and every [undefined] member left out.
    For the category ['app-state-sync-key'] what comes back is
    [fromObject] of that image. *)
Theorem credential_round_trip a (data : list (string * list (string * Value)))
        w (category id : string) (value : Value) :
  (category, id, value) ∈ triples data ->
  NoDup (fmap (task_row a) (triples data)) ->
  truthy value = true ->
  id <> "__proto__" ->
  db_fault X (Upsert (auth_sessionId a) (keyId_of category id)) = NoFault ->
  db_fault X (Select (auth_sessionId a) (keyId_of category id)) = NoFault ->
  own (keys_get X a category [id] (keys_set X a data w)) !! id
  = Some (if String.eqb category "app-state-sync-key"
          then fromObject X (json value) else json value) /\
  (plain value = true -> json value = value).
Proof.
  intros Hin Hnd Htruthy Hid Hup Hsel. split; [|apply json_plain].
  rewrite keys_get_own, decide_True by (done || apply list_elem_of_here).
  f_equal. unfold get_one. rewrite readData_spec, Hsel.
  pose proof (keys_set_row X a data w (category, id, value) Hin Hnd) as Hrow.
  unfold task_row, task_request in Hrow. simpl in Hrow.
  rewrite Htruthy, Hup in Hrow. rewrite Hrow. simpl.
  rewrite json_truthy, Htruthy. by rewrite andb_true_r.
Qed.

(** *** Bootstrap *)

Lemma getSupabaseClient_frame w :
  auth_keys (SupabaseClient.getSupabaseClient w).2 = auth_keys w /\
  entropy (SupabaseClient.getSupabaseClient w).2 = entropy w.
Proof.
  unfold SupabaseClient.getSupabaseClient.
  destruct (supabaseClient w); [done|].
  by destruct (negb _ || negb _).
Qed.

(** [initAuthCreds] draws from the random source and touches nothing
    else: with [Curve] it draws 164 bytes and returns, without [Curve] it
    throws at the first read of [Curve.publicKey], 32 bytes drawn. *)
Lemma initAuthCreds_frame w :
  auth_keys (initAuthCreds X w).2 = auth_keys w /\
  supabaseClient (initAuthCreds X w).2 = supabaseClient w /\
  console (initAuthCreds X w).2 = console w /\
  if Curve_exported X
  then returns (initAuthCreds X w).1 /\
       entropy (initAuthCreds X w).2 = (entropy w + 164)%nat
  else (initAuthCreds X w).1 = Threw (undefined_read "publicKey") /\
       entropy (initAuthCreds X w).2 = (entropy w + 32)%nat.
Proof.
  unfold initAuthCreds, generateSignedKeyPair, generateKeyPair, bind, ret,
    randomBytes, Curve.
  destruct (Curve_exported X); cbn; split_and!; try done. lia.
Qed.

Lemma readData_frame (sessionId keyId : string) w w' :
  auth_keys w' = auth_keys w ->
  readData X sessionId keyId w' = readData X sessionId keyId w.
Proof. intros Heq. rewrite !readData_spec. by rewrite Heq. Qed.

(** C3, as the code has it.  Constructing the adapter never writes to
    the table.  With the client at hand, the construction returns the
    value that [readData('creds')] gives when that value is truthy, and no
    random byte is drawn; it enters [initAuthCreds], and ends as
    [initAuthCreds] ends, exactly when [readData('creds')] comes back
    falsy.  [readData('creds')] gives the row when the read is served and
    the row is there; it comes back [null] when there is no row and also
    when the read fails on a row that exists. *)
Theorem useSupabaseAuthState_bootstrap (sessionId : string) w :
  auth_keys (useSupabaseAuthState X sessionId w).2 = auth_keys w /\
  (forall (c : Client) (w1 : World),
      SupabaseClient.getSupabaseClient w = (Returned c, w1) ->
      useSupabaseAuthState X sessionId w
      = if truthy (readData X sessionId "creds" w)
        then (Returned (mkAuthState sessionId (readData X sessionId "creds" w)), w1)
        else match initAuthCreds X w1 with
             | (Returned fresh, w2) => (Returned (mkAuthState sessionId fresh), w2)
             | (Threw e, w2) => (Threw e, w2)
             end) /\
  (forall (v : Value) (c : Client) (w1 : World),
      auth_keys w !! (sessionId, "creds") = Some v ->
      truthy v = true ->
      db_fault X (Select sessionId "creds") = NoFault ->
      SupabaseClient.getSupabaseClient w = (Returned c, w1) ->
      useSupabaseAuthState X sessionId w = (Returned (mkAuthState sessionId v), w1)) /\
  readData X sessionId "creds" w
  = match db_fault X (Select sessionId "creds") with
    | NoFault => default VNull (auth_keys w !! (sessionId, "creds"))
    | ErrorResult _ | Throws _ => VNull
    end.
Proof.
  assert (forall (c : Client) (w1 : World),
             SupabaseClient.getSupabaseClient w = (Returned c, w1) ->
             useSupabaseAuthState X sessionId w
             = if truthy (readData X sessionId "creds" w)
               then (Returned (mkAuthState sessionId (readData X sessionId "creds" w)),
                     w1)
               else match initAuthCreds X w1 with
                    | (Returned fresh, w2) =>
                        (Returned (mkAuthState sessionId fresh), w2)
                    | (Threw e, w2) => (Threw e, w2)
                    end) as Hcall.
  { intros c w1 Hc. unfold useSupabaseAuthState. rewrite Hc.
    destruct (getSupabaseClient_frame w) as [Hk _]. rewrite Hc in Hk. simpl in Hk.
    rewrite (readData_frame sessionId "creds" w w1 Hk).
    destruct (truthy _); [done|]. unfold bind, ret.
    by destruct (initAuthCreds X w1) as [[fresh|e] w2]. }
  split_and!.
  - destruct (getSupabaseClient_frame w) as [Hk _].
    destruct (SupabaseClient.getSupabaseClient w) as [[c|e] w1] eqn:Hc.
    + rewrite (Hcall c w1 eq_refl). simpl in Hk.
      destruct (truthy _); [done|].
      destruct (initAuthCreds_frame w1) as [Hk' _].
      destruct (initAuthCreds X w1) as [[fresh|e] w2]; simpl in *; congruence.
    + unfold useSupabaseAuthState. by rewrite Hc.
  - exact Hcall.
  - intros v c w1 Hrow Htruthy Hsel Hc. rewrite (Hcall c w1 Hc).
    rewrite readData_spec, Hsel, Hrow. simpl. by rewrite Htruthy.
  - apply readData_spec.
Qed.

End AdapterClaims.

Lemma keys_get_entries_witness :
  SupabaseAuthState.own (SupabaseAuthState.keys_get Scenario.prekey9_unreadable Scenario.alpha_auth
                                  "pre-key" ["7"; "9"] Scenario.prekey_world) !! "9"
  = Some VNull /\
  SupabaseAuthState.own (SupabaseAuthState.keys_get Scenario.prekey9_unreadable Scenario.alpha_auth
                                  "pre-key" ["7"; "9"] Scenario.prekey_world) !! "7"
  = Some (json Scenario.prekey7).
Proof.
  split.
  - apply (proj1 (proj2 (keys_get_entries Scenario.prekey9_unreadable
                                          Scenario.alpha_auth "pre-key" ["7"; "9"]
                                          Scenario.prekey_world)) "9").
    + apply list_elem_of_further, list_elem_of_here.
    + discriminate.
  - apply (proj1 (proj2 (keys_get_entries Scenario.prekey9_unreadable
                                          Scenario.alpha_auth "pre-key" ["7"; "9"]
                                          Scenario.prekey_world)) "7").
    + apply list_elem_of_here.
    + discriminate.
Defined.

(** C7, as the specification words it, fails: a requested ['__proto__']
    has no entry in the result. *)
Lemma proto_id_has_no_entry :
  ~ SupabaseAuthState.entry_for_every_id Scenario.healthy Scenario.alpha_auth
                                         "pre-key" ["7"; "__proto__"]
                                         Scenario.prekey_world.
Proof.
  intros Hall. destruct (Hall "__proto__") as [v Hv].
  - apply list_elem_of_further, list_elem_of_here.
  - vm_compute in Hv. discriminate.
Qed.



Lemma credential_round_trip_witness :
  SupabaseAuthState.own (SupabaseAuthState.keys_get
         Scenario.healthy Scenario.alpha_auth "pre-key" ["7"]
         (SupabaseAuthState.keys_set Scenario.healthy Scenario.alpha_auth
                                     Scenario.plain_batch Scenario.blank)) !! "7"
  = Some Scenario.plain_prekey.
Proof.
  destruct (credential_round_trip Scenario.healthy Scenario.alpha_auth
                                  Scenario.plain_batch Scenario.blank
                                  "pre-key" "7" Scenario.plain_prekey)
    as [Hback Hplain].
  - apply list_elem_of_here.
  - compute_done.
  - reflexivity.
  - discriminate.
  - reflexivity.
  - reflexivity.
  - exact (eq_trans Hback (f_equal Some (Hplain eq_refl))).
Defined.

(** C4, as the specification words it, fails: a pre-key that holds a
    [Buffer] comes back with a plain object in its place. *)
Lemma buffer_not_round_tripped :
  ~ SupabaseAuthState.round_trip Scenario.healthy Scenario.alpha_auth
                                 "pre-key" "7" Scenario.prekey7 Scenario.blank.
Proof.
  unfold SupabaseAuthState.round_trip. intros Hback.
  vm_compute in Hback. discriminate.
Qed.

Lemma useSupabaseAuthState_bootstrap_witness :
  SupabaseAuthState.useSupabaseAuthState Scenario.healthy "alpha" Scenario.populated
  = (Returned (SupabaseAuthState.mkAuthState "alpha"
                 (VObj [("registered", VBool true)])),
     (SupabaseClient.getSupabaseClient Scenario.populated).2).
Proof.
  apply (proj1 (proj2 (proj2 (useSupabaseAuthState_bootstrap
                                Scenario.healthy "alpha" Scenario.populated)))
               (VObj [("registered", VBool true)])
               (SupabaseClient.createClient 0 "https://db.example" "service-key")).
  - reflexivity.
  - reflexivity.
  - reflexivity.
  - vm_compute. reflexivity.
Defined.

(** C3, as the specification words it, fails: the ["creds"] row of session
    [alpha] exists, the read of it does not reach the store, and the
    adapter is not built with the row. *)
Lemma existing_creds_not_loaded :
  ~ SupabaseAuthState.loads_existing_creds Scenario.select_unreachable "alpha"
                                           Scenario.populated.
Proof.
  intros Hloads.
  destruct (Hloads (VObj [("registered", VBool true)]) eq_refl) as (w' & Hcall & _).
  vm_compute in Hcall. discriminate.
Qed.

(** ** SupabaseStorage.js *)

Section StorageFacts.
Import SupabaseStorage.
Context (X : External).

(** What [uploadMedia] answers and leaves in the bucket, by the fate of
    its two requests.  The upload is asked for the path
    ["<sessionId>/<messageId><extension>"], where the bytes replace what
    was there; the path of the result is the one the service answers
    with.  With the object stored, the result is the success with that
    path and the URL when the URL is issued, the success with that path
    and no URL when the signing answers with an error, and the failure
    with the message when the signing throws.  When the upload fails, the
    result is the failure and the bucket is unchanged. *)
Lemma uploadMedia_outcome (s : Storage) (messageId : string) (buffer : list Z)
      (mimeType extension : string) (w : World) :
  let storagePath := sessionId s +:+ "/" +:+ messageId +:+ extension in
  let rw := uploadMedia X s messageId buffer mimeType extension w in
  match storage_fault X (Upload (bucket s) storagePath) with
  | NoFault =>
      objects rw.2
      = <[(bucket s, storagePath) := mkBlob buffer mimeType]> (objects w) /\
      rw.1 = match storage_fault X (CreateSignedUrl (bucket s) storagePath 3600) with
             | NoFault =>
                 UploadSuccess (answered_path X (bucket s) storagePath)
                               (Some (signedUrl X (bucket s) storagePath 3600))
             | ErrorResult _ =>
                 UploadSuccess (answered_path X (bucket s) storagePath) None
             | Throws e => UploadFailure e
             end
  | ErrorResult e | Throws e =>
      objects rw.2 = objects w /\ rw.1 = UploadFailure e
  end.
Proof.
  intros storagePath rw. subst rw.
  unfold uploadMedia, storage_upload, storage_createSignedUrl, _getStoragePath.
  fold storagePath.
  destruct (storage_fault X (Upload (bucket s) storagePath)); simpl; [|done..].
  by destruct (storage_fault X (CreateSignedUrl (bucket s) storagePath 3600)).
Qed.

(** C9.  The upload is served and the request for the signed URL throws:
    [uploadMedia] answers with the failure that carries the message of
    the exception and prints it, although the object is stored and can be
    downloaded.  [getMediaUrl], for the same request with the same fate,
    answers [null]. *)
Theorem uploadMedia_signing_throws (s : Storage) (messageId : string)
        (buffer : list Z) (mimeType extension : string) (w : World) (e : string) :
  storage_fault X (Upload (bucket s) (_getStoragePath s messageId extension))
  = NoFault ->
  storage_fault X (CreateSignedUrl (bucket s) (_getStoragePath s messageId extension)
                                   3600) = Throws e ->
  (uploadMedia X s messageId buffer mimeType extension w).1 = UploadFailure e /\
  console (uploadMedia X s messageId buffer mimeType extension w).2
  = console w ++ [LogUploadError (sessionId s) e] /\
  objects (uploadMedia X s messageId buffer mimeType extension w).2
  = <[(bucket s, _getStoragePath s messageId extension) := mkBlob buffer mimeType]>
      (objects w) /\
  (storage_fault X (Download (bucket s) (_getStoragePath s messageId extension))
   = NoFault ->
   downloadMedia X s messageId extension
                 (uploadMedia X s messageId buffer mimeType extension w).2
   = Some buffer) /\
  getMediaUrl X s messageId extension 3600 = None.
Proof.
  intros Hup Hsign.
  unfold uploadMedia, downloadMedia, getMediaUrl, storage_upload,
    storage_createSignedUrl, storage_download.
  rewrite Hup, Hsign. simpl. split_and!; try done.
  intros ->. by rewrite lookup_insert_eq.
Qed.

End StorageFacts.

Lemma uploadMedia_signing_throws_witness :
  (SupabaseStorage.uploadMedia Scenario.signing_throws Scenario.alpha_media
                               "3EB0A1" [137; 80; 78; 71] "image/png" ".png"
                               Scenario.configured).1
  = SupabaseStorage.UploadFailure "fetch failed" /\
  SupabaseStorage.downloadMedia
    Scenario.signing_throws Scenario.alpha_media "3EB0A1" ".png"
    (SupabaseStorage.uploadMedia Scenario.signing_throws Scenario.alpha_media
                                 "3EB0A1" [137; 80; 78; 71] "image/png" ".png"
                                 Scenario.configured).2
  = Some [137; 80; 78; 71].
Proof.
  destruct (uploadMedia_signing_throws
              Scenario.signing_throws Scenario.alpha_media "3EB0A1"
              [137; 80; 78; 71] "image/png" ".png" Scenario.configured
              "fetch failed" eq_refl eq_refl) as (Hfailure & _ & _ & Hstored & _).
  split; [exact Hfailure | exact (Hstored eq_refl)].
Defined.

(** The tolerance that the specification asks for fails there: the upload
    succeeds, the request for the signed URL throws, and the result is a
    failure. *)
Lemma signing_exception_fails_upload :
  ~ SupabaseStorage.signing_failure_tolerated Scenario.signing_throws
      Scenario.alpha_media "3EB0A1" [137; 80; 78; 71] "image/png" ".png"
      Scenario.configured.
Proof.
  intros Htolerated.
  assert (SupabaseStorage.UploadFailure "fetch failed"
          = SupabaseStorage.UploadSuccess "alpha/3EB0A1.png" None) as Habsurd;
    [|discriminate].
  apply Htolerated; [reflexivity | discriminate].
Qed.

(** The same request answering with an error is tolerated: the result is
    the success with no URL. *)
Example signing_refused_tolerated :
  (SupabaseStorage.uploadMedia Scenario.signing_refused Scenario.alpha_media
                               "3EB0A1" [137; 80; 78; 71] "image/png" ".png"
                               Scenario.configured).1
  = SupabaseStorage.UploadSuccess "alpha/3EB0A1.png" None.
Proof. reflexivity. Qed.

(** ** The scenarios, evaluated *)

(** Start-up with the directories [alpha] and [beta] when the engine
    refuses [alpha]: the journal ends with the error line and [beta] was
    never touched. *)
Example restore_refused_trace :
  WhatsAppManager.journal
    (WhatsAppManager.initExistingSessions
       (WhatsAppSession.class Scenario.refusing_alpha) Scenario.two_directories)
  = [WhatsAppManager.LogRestoring "alpha"; WhatsAppManager.Constructed "alpha";
     WhatsAppManager.ConnectCalled "alpha";
     WhatsAppManager.LogErrorInitializing "Connection Failure"] /\
  JsMap.keys
    (WhatsAppManager.sessions
       (WhatsAppManager.initExistingSessions
          (WhatsAppSession.class Scenario.refusing_alpha) Scenario.two_directories))
  = ["alpha"].
Proof. split; reflexivity. Qed.

(** The same start-up with an engine that accepts every session. *)
Example restore_accepted_trace :
  JsMap.keys
    (WhatsAppManager.sessions
       (WhatsAppManager.initExistingSessions
          (WhatsAppSession.class Scenario.healthy) Scenario.two_directories))
  = ["alpha"; "beta"].
Proof. reflexivity. Qed.

(** A removal whose request does not reach the store: the row is still
    there and the console is empty. *)
Example removal_unreachable_trace :
  console (SupabaseAuthState.keys_set Scenario.delete_unreachable Scenario.alpha_auth
                                      Scenario.removal_batch Scenario.blank) = [] /\
  console (SupabaseAuthState.keys_set
             (Scenario.with_db_fault (fun _ => ErrorResult "timeout"))
             Scenario.alpha_auth Scenario.prekey_batch Scenario.blank)
  = [LogAuthWriteError "alpha" "pre-key-7" "timeout"].
Proof. split; reflexivity. Qed.

(** The adapter of session [alpha] when the read of its credentials does
    not reach the store: [initAuthCreds] is entered although the row is
    there.  With the library as it is the call throws after 32 random
    bytes; with a library object that has [Curve], 164 random bytes are
    drawn for a new identity.  The row is as it was in both cases. *)
Example bootstrap_on_failed_read :
  SupabaseAuthState.useSupabaseAuthState Scenario.select_unreachable "alpha"
                                         Scenario.populated
  = (Threw (undefined_read "publicKey"),
     set_entropy 32 (SupabaseClient.getSupabaseClient Scenario.populated).2) /\
  entropy (SupabaseAuthState.useSupabaseAuthState
             (Scenario.set_Curve_exported true Scenario.select_unreachable) "alpha"
             Scenario.populated).2 = 164%nat /\
  auth_keys (SupabaseAuthState.useSupabaseAuthState
               (Scenario.set_Curve_exported true Scenario.select_unreachable) "alpha"
               Scenario.populated).2
  !! ("alpha", "creds") = Some (VObj [("registered", VBool true)]).
Proof. split; [|split]; reflexivity. Qed.

(** An upload whose signing throws, and one whose signing is refused: the
    object is stored in both cases. *)
Example signing_traces :
  (SupabaseStorage.uploadMedia Scenario.signing_throws Scenario.alpha_media "3EB0A1"
                               [137; 80; 78; 71] "image/png" ".png"
                               Scenario.configured).1
  = SupabaseStorage.UploadFailure "fetch failed" /\
  objects (SupabaseStorage.uploadMedia Scenario.signing_throws Scenario.alpha_media
                                       "3EB0A1" [137; 80; 78; 71] "image/png" ".png"
                                       Scenario.configured).2
  !! ("chatery-media", "alpha/3EB0A1.png") = Some (mkBlob [137; 80; 78; 71] "image/png") /\
  (SupabaseStorage.uploadMedia Scenario.signing_refused Scenario.alpha_media "3EB0A1"
                               [137; 80; 78; 71] "image/png" ".png"
                               Scenario.configured).1
  = SupabaseStorage.UploadSuccess "alpha/3EB0A1.png" None.
Proof. split; [|split]; reflexivity. Qed.

(** * Further properties of the code *)

(** ** SupabaseClient.js: the first call *)

Section ClientExtras.
Import SupabaseClient.

(** X1. On a module without a client, [isSupabaseConfigured()] tells what
    [getSupabaseClient()] will do: when it is true, both variables are set
    and not empty and the call creates, stores and returns a client for
    them with token refresh and session persistence off; when it is false
    (a variable unset or empty) the call throws and stores nothing. *)
Theorem getSupabaseClient_first_call (w : World) :
  supabaseClient w = None ->
  if isSupabaseConfigured w
  then exists url key : string,
      penv w !! "SUPABASE_URL" = Some url /\ url <> "" /\
      penv w !! "SUPABASE_SERVICE_KEY" = Some key /\ key <> "" /\
      getSupabaseClient w
      = (Returned (mkClient (clients_created w) url key false false),
         set_client (mkClient (clients_created w) url key false false) w)
  else getSupabaseClient w = (Threw missing_config, w).
Proof.
  intros Hnone. unfold isSupabaseConfigured, getSupabaseClient. rewrite Hnone.
  destruct (penv w !! "SUPABASE_URL") as [url|]; simpl; [|done].
  destruct (String.eqb url "") eqn:Eurl; simpl; [done|].
  destruct (penv w !! "SUPABASE_SERVICE_KEY") as [key|]; simpl; [|done].
  destruct (String.eqb key "") eqn:Ekey; simpl; [done|].
  exists url, key. apply String.eqb_neq in Eurl, Ekey. done.
Qed.

Lemma unconfigured_throws (w : World) :
  supabaseClient w = None ->
  isSupabaseConfigured w = false ->
  getSupabaseClient w = (Threw missing_config, w).
Proof.
  intros Hnone Hoff.
  unfold isSupabaseConfigured in Hoff. unfold getSupabaseClient. rewrite Hnone.
  destruct (env_truthy (penv w !! "SUPABASE_URL")); simpl in *; [|done].
  by rewrite Hoff.
Qed.

(** X2. Without a client and without the configuration, every entry point
    that needs the client fails at once with the configuration error and
    leaves the world as it was: the adapter is not built and no identity is
    generated, no row is deleted, no storage handle is made. *)
Theorem entry_points_need_client (X : External) (sessionId : string) (w : World) :
  supabaseClient w = None ->
  isSupabaseConfigured w = false ->
  SupabaseAuthState.useSupabaseAuthState X sessionId w = (Threw missing_config, w) /\
  SupabaseAuthState.deleteSupabaseAuthState X sessionId w = (Threw missing_config, w) /\
  SupabaseStorage.constructor sessionId w = (Threw missing_config, w).
Proof.
  intros Hnone Hoff.
  unfold SupabaseAuthState.useSupabaseAuthState,
    SupabaseAuthState.deleteSupabaseAuthState, SupabaseStorage.constructor.
  by rewrite (unconfigured_throws w Hnone Hoff).
Qed.

End ClientExtras.

Lemma getSupabaseClient_first_call_witness :
  exists url key : string,
    penv Scenario.configured !! "SUPABASE_URL" = Some url /\ url <> "" /\
    penv Scenario.configured !! "SUPABASE_SERVICE_KEY" = Some key /\ key <> "" /\
    SupabaseClient.getSupabaseClient Scenario.configured
    = (Returned (mkClient 0 url key false false),
       set_client (mkClient 0 url key false false) Scenario.configured).
Proof.
  exact (getSupabaseClient_first_call Scenario.configured eq_refl).
Defined.

Lemma entry_points_need_client_witness :
  SupabaseAuthState.useSupabaseAuthState Scenario.healthy "alpha" Scenario.blank
  = (Threw SupabaseClient.missing_config, Scenario.blank) /\
  SupabaseAuthState.deleteSupabaseAuthState Scenario.healthy "alpha" Scenario.blank
  = (Threw SupabaseClient.missing_config, Scenario.blank) /\
  SupabaseStorage.constructor "alpha" Scenario.blank
  = (Threw SupabaseClient.missing_config, Scenario.blank).
Proof.
  apply (entry_points_need_client Scenario.healthy "alpha" Scenario.blank);
    reflexivity.
Defined.

(** ** SupabaseAuthState.js: the identity *)

Section IdentityExtras.
Import SupabaseAuthState.
Context (X : External).
Implicit Types (a : AuthState) (w : World).

Lemma land_mask_bounds (x : Z) (n : Z) :
  0 <= n -> 0 <= Z.land x (Z.ones n) < 2 ^ n.
Proof.
  intros Hn. rewrite Z.land_ones by done. apply Z.mod_pos_bound.
  by apply Z.pow_pos_nonneg.
Qed.

(** X3. What [initAuthCreds] does.  When the object that line 141 takes
    [Curve] from has no such member, which is so with the library as it
    is, the call throws the [TypeError] of the first [Curve.publicKey],
    32 random bytes drawn.  With [Curve] at hand it returns an identity
    and has drawn 164 bytes: the private keys, the two ids and the secret
    are read from stretches of the random source that do not overlap and
    start where the world stands; the registration id is the 16-bit number
    read from its two bytes, cut to 14 bits, and the id of the signed
    pre-key the 16-bit number read from its two bytes; every public key is
    [Curve.publicKey] of its private key; the signature of the signed
    pre-key is [Curve.sign] of the private identity key over the public
    pre-key. *)
Theorem initAuthCreds_identity w :
  let drawn (from len : nat) := map (randomByte X) (seq (entropy w + from) len) in
  if Curve_exported X
  then
    exists identity : Value,
      initAuthCreds X w = (Returned identity, set_entropy (entropy w + 164)%nat w) /\
      get_field "signedIdentityKey" identity
      = keyPairObject (drawn 0%nat 32%nat) (Curve_publicKey X (drawn 0%nat 32%nat)) /\
      get_field "noiseKey" identity
      = keyPairObject (drawn 32%nat 32%nat) (Curve_publicKey X (drawn 32%nat 32%nat)) /\
      get_field "pairingEphemeralKeyPair" identity
      = keyPairObject (drawn 64%nat 32%nat) (Curve_publicKey X (drawn 64%nat 32%nat)) /\
      get_field "keyPair" (get_field "signedPreKey" identity)
      = keyPairObject (drawn 98%nat 32%nat) (Curve_publicKey X (drawn 98%nat 32%nat)) /\
      get_field "signature" (get_field "signedPreKey" identity)
      = VBytes (Curve_sign X (drawn 0%nat 32%nat)
                           (Curve_publicKey X (drawn 98%nat 32%nat))) /\
      get_field "keyId" (get_field "signedPreKey" identity)
      = VNum (Z.land (readUInt16BE (drawn 96%nat 2%nat)) 65535) /\
      0 <= Z.land (readUInt16BE (drawn 96%nat 2%nat)) 65535 < 65536 /\
      get_field "registrationId" identity
      = VNum (Z.land (readUInt16BE (drawn 130%nat 2%nat)) 16383) /\
      0 <= Z.land (readUInt16BE (drawn 130%nat 2%nat)) 16383 < 16384 /\
      get_field "advSecretKey" identity = VStr (toBase64 X (drawn 132%nat 32%nat)) /\
      get_field "registered" identity = VBool false
  else
    initAuthCreds X w
    = (Threw (undefined_read "publicKey"), set_entropy (entropy w + 32)%nat w).
Proof.
  intros drawn.
  unfold initAuthCreds, generateSignedKeyPair, generateKeyPair, bind, ret,
    randomBytes, Curve.
  destruct (Curve_exported X); [|reflexivity].
  cbn [fst snd entropy set_entropy].
  assert (forall n len, map (randomByte X) (seq (entropy w + n) len) = drawn n len)
    as Hd by done.
  assert (forall len, map (randomByte X) (seq (entropy w) len) = drawn 0%nat len)
    as Hd0 by (intros len; unfold drawn; by rewrite Nat.add_0_r).
  replace (entropy w + 32 + 32)%nat with (entropy w + 64)%nat by lia.
  replace (entropy w + 64 + 32)%nat with (entropy w + 96)%nat by lia.
  replace (entropy w + 96 + 2)%nat with (entropy w + 98)%nat by lia.
  replace (entropy w + 98 + 32)%nat with (entropy w + 130)%nat by lia.
  replace (entropy w + 130 + 2)%nat with (entropy w + 132)%nat by lia.
  replace (entropy w + 132 + 32)%nat with (entropy w + 164)%nat by lia.
  rewrite !Hd, !Hd0.
  eexists. split; [reflexivity|].
  cbn [get_field lookup_field String.eqb Ascii.eqb Bool.eqb].
  split_and!; try reflexivity.
  - apply (land_mask_bounds _ 16). lia.
  - apply (land_mask_bounds _ 16). lia.
  - apply (land_mask_bounds _ 14). lia.
  - apply (land_mask_bounds _ 14). lia.
Qed.

End IdentityExtras.

(** ** SupabaseAuthState.js: saving, reloading, clearing *)

Section PersistenceExtras.
Import SupabaseAuthState.
Context (X : External).
Implicit Types (a : AuthState) (w : World) (t : string * string * Value).

Lemma saveCreds_served a w :
  db_fault X (Upsert (auth_sessionId a) "creds") = NoFault ->
  truthy (creds a) = true ->
  saveCreds X a w
  = set_auth_keys (<[(auth_sessionId a, "creds") := json (creds a)]> (auth_keys w)) w.
Proof.
  intros Hup Htruthy. unfold saveCreds, writeData. by rewrite upsert_served.
Qed.

Lemma reload_after_save a w (c : Client) :
  supabaseClient w = Some c ->
  truthy (creds a) = true ->
  db_fault X (Upsert (auth_sessionId a) "creds") = NoFault ->
  db_fault X (Select (auth_sessionId a) "creds") = NoFault ->
  useSupabaseAuthState X (auth_sessionId a) (saveCreds X a w)
  = (Returned (mkAuthState (auth_sessionId a) (json (creds a))), saveCreds X a w).
Proof.
  intros Hc Htruthy Hup Hsel. rewrite (saveCreds_served a w Hup Htruthy).
  unfold useSupabaseAuthState.
  rewrite (getSupabaseClient_cached c) by exact Hc.
  rewrite readData_spec, Hsel. simpl. rewrite lookup_insert_eq. simpl.
  by rewrite json_truthy, Htruthy.
Qed.

(** X4. Saving and reloading.  With the store serving the write and the
    read of the ["creds"] row: after [saveCreds()] on an adapter whose
    credentials are not falsy, the row of the session is there, and
    building the adapter of the session again takes its credentials from
    that row, generates nothing (no random byte is drawn) and changes
    nothing; [saveCreds()] itself prints nothing and touches no other
    row. *)
Theorem saveCreds_reload a w (c : Client) :
  db_fault X (Upsert (auth_sessionId a) "creds") = NoFault ->
  db_fault X (Select (auth_sessionId a) "creds") = NoFault ->
  supabaseClient w = Some c ->
  truthy (creds a) = true ->
  (exists stored : Value,
      auth_keys (saveCreds X a w) !! (auth_sessionId a, "creds") = Some stored /\
      useSupabaseAuthState X (auth_sessionId a) (saveCreds X a w)
      = (Returned (mkAuthState (auth_sessionId a) stored), saveCreds X a w)) /\
  console (saveCreds X a w) = console w /\
  entropy (saveCreds X a w) = entropy w /\
  (forall row : string * string,
      row <> (auth_sessionId a, "creds") ->
      auth_keys (saveCreds X a w) !! row = auth_keys w !! row).
Proof.
  intros Hup Hsel Hc Htruthy. split.
  - exists (json (creds a)). split.
    + rewrite (saveCreds_served a w Hup Htruthy). simpl. apply lookup_insert_eq.
    + by apply (reload_after_save a w c).
  - rewrite (saveCreds_served a w Hup Htruthy). simpl. split_and!; [done..|].
    intros row Hrow. by apply lookup_insert_ne.
Qed.

(** X5. Nothing is stored by the construction.  For a session without
    a ["creds"] row, building the adapter enters [initAuthCreds] and ends
    as it ends: with an identity and 164 random bytes drawn when [Curve]
    is at hand, with the [TypeError] and 32 bytes drawn with the library
    as it is.  The row is still absent afterwards, so that building the
    adapter again, without [saveCreds()] in between, enters
    [initAuthCreds] again, on the next random bytes. *)
Theorem bootstrap_not_persisted (sessionId : string) w (c : Client) :
  supabaseClient w = Some c ->
  auth_keys w !! (sessionId, "creds") = None ->
  let built (w0 : World) :=
    match initAuthCreds X w0 with
    | (Returned fresh, w2) => (Returned (mkAuthState sessionId fresh), w2)
    | (Threw e, w2) => (Threw e, w2)
    end in
  let w1 := (useSupabaseAuthState X sessionId w).2 in
  useSupabaseAuthState X sessionId w = built w /\
  auth_keys w1 = auth_keys w /\
  entropy w1 = (entropy w + if Curve_exported X then 164 else 32)%nat /\
  useSupabaseAuthState X sessionId w1 = built w1 /\
  auth_keys (useSupabaseAuthState X sessionId w1).2 = auth_keys w /\
  entropy (useSupabaseAuthState X sessionId w1).2
  = (entropy w + if Curve_exported X then 328 else 64)%nat.
Proof.
  intros Hc Hrow built w1.
  assert (forall w0 (c0 : Client),
             supabaseClient w0 = Some c0 -> auth_keys w0 = auth_keys w ->
             useSupabaseAuthState X sessionId w0 = built w0) as Hbuilt.
  { intros w0 c0 Hc0 Hw0. unfold useSupabaseAuthState.
    rewrite (getSupabaseClient_cached c0 w0 Hc0).
    rewrite readData_spec, Hw0, Hrow.
    assert (truthy match db_fault X (Select sessionId "creds") with
                   | NoFault => default VNull None
                   | _ => VNull
                   end = false) as ->
        by (by destruct (db_fault X (Select sessionId "creds"))).
    unfold built, bind, ret. by destruct (initAuthCreds X w0) as [[fresh|e] w2]. }
  assert (forall w0, auth_keys (built w0).2 = auth_keys w0 /\
                     supabaseClient (built w0).2 = supabaseClient w0 /\
                     entropy (built w0).2
                     = (entropy w0 + if Curve_exported X then 164 else 32)%nat)
    as Hframe.
  { intros w0. destruct (initAuthCreds_frame X w0) as (Hk & Hs & _ & He).
    unfold built. destruct (initAuthCreds X w0) as [[fresh|e] w2]; simpl in *;
      destruct (Curve_exported X); split_and!; try done; by destruct He. }
  pose proof (Hbuilt w c Hc eq_refl) as H1.
  destruct (Hframe w) as (Hk1 & Hs1 & He1).
  assert (auth_keys w1 = auth_keys w) as Hkw1 by (subst w1; by rewrite H1).
  assert (supabaseClient w1 = Some c) as Hcw1 by (subst w1; by rewrite H1, Hs1).
  assert (entropy w1 = (entropy w + if Curve_exported X then 164 else 32)%nat)
    as Hew1 by (subst w1; by rewrite H1).
  pose proof (Hbuilt w1 c Hcw1 Hkw1) as H2.
  destruct (Hframe w1) as (Hk2 & _ & He2).
  split_and!; try done.
  - by rewrite H2, Hk2.
  - rewrite H2, He2, Hew1. destruct (Curve_exported X); lia.
Qed.

End PersistenceExtras.

Lemma saveCreds_reload_witness :
  exists stored : Value,
    auth_keys (SupabaseAuthState.saveCreds Scenario.healthy Scenario.alpha_auth
                                           Scenario.cached)
    !! ("alpha", "creds") = Some stored /\
    SupabaseAuthState.useSupabaseAuthState
      Scenario.healthy "alpha"
      (SupabaseAuthState.saveCreds Scenario.healthy Scenario.alpha_auth Scenario.cached)
    = (Returned (SupabaseAuthState.mkAuthState "alpha" stored),
       SupabaseAuthState.saveCreds Scenario.healthy Scenario.alpha_auth Scenario.cached).
Proof.
  apply (saveCreds_reload Scenario.healthy Scenario.alpha_auth Scenario.cached
                          Scenario.the_client); reflexivity.
Defined.

Lemma bootstrap_not_persisted_witness :
  SupabaseAuthState.useSupabaseAuthState Scenario.healthy "alpha" Scenario.cached
  = (Threw (undefined_read "publicKey"), set_entropy 32 Scenario.cached) /\
  entropy (SupabaseAuthState.useSupabaseAuthState
             Scenario.with_Curve "alpha"
             (SupabaseAuthState.useSupabaseAuthState Scenario.with_Curve "alpha"
                                                     Scenario.cached).2).2
  = 328%nat.
Proof.
  split.
  - apply (bootstrap_not_persisted Scenario.healthy "alpha" Scenario.cached
                                   Scenario.the_client); reflexivity.
  - apply (bootstrap_not_persisted Scenario.with_Curve "alpha" Scenario.cached
                                   Scenario.the_client); reflexivity.
Defined.

Section ClearingExtras.
Import SupabaseAuthState.
Context (X : External).
Implicit Types (a : AuthState) (w : World) (t : string * string * Value).

Lemma delete_session_rows (sessionId : string) w (row : string * string) :
  filter (fun kv : (string * string) * Value => kv.1.1 <> sessionId) (auth_keys w)
  !! row
  = if decide (row.1 = sessionId) then None else auth_keys w !! row.
Proof.
  rewrite map_lookup_filter.
  destruct (auth_keys w !! row) as [v|] eqn:Hrow; simpl.
  - case_decide as Hsid; simpl.
    + by rewrite option_guard_False by (simpl; tauto).
    + by rewrite option_guard_True.
  - by case_decide.
Qed.

(** X6. [clearAll()] never prints and never throws.  When the store
    serves the deletion, no row of the session is left, whatever its key,
    and the rows of the other sessions are as before; when the deletion
    answers with an error or throws, the world is exactly as before. *)
Theorem clearAll_effect (sessionId : string) w :
  console (clearAll X sessionId w) = console w /\
  match db_fault X (DeleteSession sessionId) with
  | NoFault =>
      forall row : string * string,
        auth_keys (clearAll X sessionId w) !! row
        = if decide (row.1 = sessionId) then None else auth_keys w !! row
  | ErrorResult _ | Throws _ => clearAll X sessionId w = w
  end.
Proof.
  unfold clearAll, delete_session.
  destruct (db_fault X (DeleteSession sessionId)); simpl; [|done..].
  split; [done|]. intros row. apply delete_session_rows.
Qed.

(** X7. After a [clearAll()] that the store served, the session is as
    new: [keys.get] answers [null] for every requested id of every type
    (['__proto__'] apart), and building the
    adapter again enters [initAuthCreds] and ends as it ends. *)
Theorem clearAll_forgets a w (c : Client) :
  db_fault X (DeleteSession (auth_sessionId a)) = NoFault ->
  supabaseClient w = Some c ->
  (forall (type : string) (ids : list string) (id : string),
      id ∈ ids -> id <> "__proto__" ->
      own (keys_get X a type ids (clearAll X (auth_sessionId a) w)) !! id
      = Some VNull) /\
  useSupabaseAuthState X (auth_sessionId a) (clearAll X (auth_sessionId a) w)
  = match initAuthCreds X (clearAll X (auth_sessionId a) w) with
    | (Returned fresh, w2) => (Returned (mkAuthState (auth_sessionId a) fresh), w2)
    | (Threw e, w2) => (Threw e, w2)
    end.
Proof.
  intros Hok Hc.
  assert (forall keyId, readData X (auth_sessionId a) keyId
                                 (clearAll X (auth_sessionId a) w) = VNull) as Hread.
  { intros keyId. rewrite readData_spec.
    destruct (db_fault X (Select _ _)); [|done..].
    unfold clearAll, delete_session. rewrite Hok. simpl.
    rewrite delete_session_rows. simpl. by rewrite decide_True. }
  split.
  - intros type ids id Hin Hne. rewrite keys_get_own, decide_True by done.
    unfold get_one. rewrite Hread. simpl. by rewrite andb_false_r.
  - unfold useSupabaseAuthState.
    assert (supabaseClient (clearAll X (auth_sessionId a) w) = Some c) as Hc'.
    { unfold clearAll, delete_session. by rewrite Hok. }
    rewrite (getSupabaseClient_cached c (clearAll X (auth_sessionId a) w) Hc'), Hread.
    simpl. unfold bind, ret.
    by destruct (initAuthCreds X (clearAll X (auth_sessionId a) w)) as [[fresh|e] w2].
Qed.

(** X8. [deleteSupabaseAuthState()] on a module that has its client always
    returns.  It prints the line that the keys were deleted when the
    deletion was served and also when the store answered with an error,
    in which case every row is still there; only an exception is printed
    as an error. *)
Theorem deleteSupabaseAuthState_outcomes (sessionId : string) w (c : Client) :
  supabaseClient w = Some c ->
  (deleteSupabaseAuthState X sessionId w).1 = Returned tt /\
  match db_fault X (DeleteSession sessionId) with
  | NoFault =>
      console (deleteSupabaseAuthState X sessionId w).2
      = console w ++ [LogAuthDeleted sessionId] /\
      forall row : string * string,
        auth_keys (deleteSupabaseAuthState X sessionId w).2 !! row
        = if decide (row.1 = sessionId) then None else auth_keys w !! row
  | ErrorResult _ =>
      console (deleteSupabaseAuthState X sessionId w).2
      = console w ++ [LogAuthDeleted sessionId] /\
      auth_keys (deleteSupabaseAuthState X sessionId w).2 = auth_keys w
  | Throws e =>
      console (deleteSupabaseAuthState X sessionId w).2
      = console w ++ [LogAuthDeleteError sessionId e] /\
      auth_keys (deleteSupabaseAuthState X sessionId w).2 = auth_keys w
  end.
Proof.
  intros Hc. unfold deleteSupabaseAuthState.
  rewrite (getSupabaseClient_cached c w Hc). unfold delete_session.
  destruct (db_fault X (DeleteSession sessionId)); simpl; [|done..].
  split; [done|]. split; [done|]. intros row. apply delete_session_rows.
Qed.

(** X9. Writes of one session never reach another session: whatever the
    batch and whatever the store does, [keys.set], [saveCreds()] and
    [clearAll()] of a session leave every row of every other session as it
    was. *)
Theorem credential_writes_session_scoped a
        (data : list (string * list (string * Value))) w (row : string * string) :
  row.1 <> auth_sessionId a ->
  auth_keys (keys_set X a data w) !! row = auth_keys w !! row /\
  auth_keys (saveCreds X a w) !! row = auth_keys w !! row /\
  auth_keys (clearAll X (auth_sessionId a) w) !! row = auth_keys w !! row.
Proof.
  intros Hother. split; [|split].
  - apply keys_set_other.
    intros Hin. apply list_elem_of_fmap in Hin as (t & -> & _). by apply Hother.
  - unfold saveCreds, writeData.
    destruct (upsert_frame X (auth_sessionId a) "creds" (creds a) w) as [Hrows _].
    assert (row <> (auth_sessionId a, "creds")) as Hne
        by (intros ->; by apply Hother).
    specialize (Hrows row Hne).
    by destruct (upsert X (auth_sessionId a) "creds" (creds a) w) as [[[? [?|]]|?] ?].
  - unfold clearAll, delete_session.
    destruct (db_fault X (DeleteSession _)); simpl; [|done..].
    rewrite delete_session_rows. by rewrite decide_False.
Qed.

End ClearingExtras.

Lemma clearAll_forgets_witness :
  SupabaseAuthState.own
    (SupabaseAuthState.keys_get
       Scenario.healthy Scenario.alpha_auth "pre-key" ["7"]
       (SupabaseAuthState.clearAll Scenario.healthy "alpha"
                                   Scenario.two_sessions_cached))
  !! "7" = Some VNull.
Proof.
  destruct (clearAll_forgets Scenario.healthy Scenario.alpha_auth
                             Scenario.two_sessions_cached Scenario.the_client)
    as [Hget _].
  - reflexivity.
  - reflexivity.
  - apply (Hget "pre-key" ["7"] "7"); [apply list_elem_of_here | discriminate].
Defined.

Lemma deleteSupabaseAuthState_outcomes_witness :
  (SupabaseAuthState.deleteSupabaseAuthState Scenario.session_delete_refused "alpha"
                                             Scenario.two_sessions_cached).1
  = Returned tt /\
  console (SupabaseAuthState.deleteSupabaseAuthState
             Scenario.session_delete_refused "alpha" Scenario.two_sessions_cached).2
  = console Scenario.two_sessions_cached ++ [LogAuthDeleted "alpha"] /\
  auth_keys (SupabaseAuthState.deleteSupabaseAuthState
               Scenario.session_delete_refused "alpha" Scenario.two_sessions_cached).2
  = auth_keys Scenario.two_sessions_cached.
Proof.
  apply (deleteSupabaseAuthState_outcomes Scenario.session_delete_refused "alpha"
                                          Scenario.two_sessions_cached
                                          Scenario.the_client).
  reflexivity.
Defined.

Lemma credential_writes_session_scoped_witness :
  auth_keys (SupabaseAuthState.keys_set Scenario.healthy Scenario.alpha_auth
                                        Scenario.prekey_batch
                                        Scenario.two_sessions_world)
  !! ("beta", "creds") = Some Scenario.registered_creds.
Proof.
  destruct (credential_writes_session_scoped
              Scenario.healthy Scenario.alpha_auth Scenario.prekey_batch
              Scenario.two_sessions_world ("beta", "creds")) as [Hset _].
  - discriminate.
  - rewrite Hset. reflexivity.
Defined.

(** ** SupabaseAuthState.js: batches *)

Section BatchExtras.
Import SupabaseAuthState.
Context (X : External).
Implicit Types (a : AuthState) (w : World) (t : string * string * Value).

Lemma keyId_of_inj_id (category id id' : string) :
  keyId_of category id = keyId_of category id' -> id = id'.
Proof.
  unfold keyId_of. intros Heq.
  apply (inj (String.append category)) in Heq.
  by apply (inj (String.append "-")) in Heq.
Qed.

Lemma triples_one_category (category : string) (entries : list (string * Value)) :
  triples [(category, entries)]
  = (fun kv : string * Value => (category, kv.1, kv.2)) <$> entries.
Proof. unfold triples. simpl. by rewrite app_nil_r. Qed.

Lemma category_rows_distinct a (category : string) (entries : list (string * Value)) :
  NoDup entries.*1 ->
  NoDup (task_row a <$> triples [(category, entries)]).
Proof.
  intros Hnd. rewrite triples_one_category, <- list_fmap_compose.
  change (NoDup (((fun id => (auth_sessionId a, keyId_of category id)) ∘ fst)
                   <$> entries)).
  rewrite list_fmap_compose. apply NoDup_fmap_2; [|done].
  intros id id' [= Heq]. by apply keyId_of_inj_id in Heq.
Qed.

Lemma entries_functional (entries : list (string * Value)) (id : string)
      (value value' : Value) :
  NoDup entries.*1 -> (id, value) ∈ entries -> (id, value') ∈ entries ->
  value = value'.
Proof.
  induction entries as [|[i v] entries IH]; intros Hnd Hin Hin';
    [by apply elem_of_nil in Hin|].
  simpl in Hnd. apply NoDup_cons in Hnd as [Hfresh Hnd].
  apply elem_of_cons in Hin as [Heq|Hin]; apply elem_of_cons in Hin' as [Heq'|Hin'].
  - congruence.
  - exfalso. apply Hfresh. injection Heq as <- <-.
    by apply (list_elem_of_fmap_2 fst _ (id, value')).
  - exfalso. apply Hfresh. injection Heq' as <- <-.
    by apply (list_elem_of_fmap_2 fst _ (id, value)).
  - by apply IH.
Qed.

(** X10. Removal through [keys.set].  After a batch of one category, an
    id other than ['__proto__'] that the batch gave a falsy value reads as
    [null] through [keys.get] when the store served its deletion, whatever
    the row held before; when the deletion answered with an error or
    threw, [keys.get] still gives what it gave before the batch, and the
    batch printed nothing about it. *)
Theorem category_batch_removal a (category : string)
        (entries : list (string * Value)) w (id : string) (value : Value) :
  NoDup entries.*1 ->
  (id, value) ∈ entries ->
  truthy value = false ->
  id <> "__proto__" ->
  own (keys_get X a category entries.*1 (keys_set X a [(category, entries)] w)) !! id
  = Some (match db_fault X (Delete (auth_sessionId a) (keyId_of category id)) with
          | NoFault => VNull
          | ErrorResult _ | Throws _ => get_one X a category id w
          end) /\
  (forall line : LogLine,
      line ∈ console (keys_set X a [(category, entries)] w) ->
      line ∈ console w \/
      exists (id' : string) (e : string),
        id' <> id /\ line = LogAuthWriteError (auth_sessionId a) (keyId_of category id') e).
Proof.
  intros Hnd Hin Hfalsy Hproto.
  assert (id ∈ entries.*1) as Hid by (by apply (list_elem_of_fmap_2 fst _ (id, value))).
  assert ((category, id, value) ∈ triples [(category, entries)]) as Ht.
  { rewrite triples_one_category.
    by apply (list_elem_of_fmap_2 (fun kv : string * Value => (category, kv.1, kv.2))
                                  _ (id, value)). }
  split.
  - rewrite keys_get_own, decide_True by done. f_equal.
    unfold get_one. rewrite !readData_spec.
    pose proof (keys_set_row X a _ w _ Ht (category_rows_distinct a category entries Hnd))
      as Hrow.
    unfold task_request in Hrow.
    change (task_row a (category, id, value))
      with (auth_sessionId a, keyId_of category id) in Hrow.
    change (category, id, value).2 with value in Hrow.
    change (category, id, value).1.1 with category in Hrow.
    change (category, id, value).1.2 with id in Hrow.
    rewrite Hfalsy in Hrow. rewrite Hrow.
    destruct (db_fault X (Delete _ _)); [|done..].
    destruct (db_fault X (Select _ _)); simpl; by rewrite andb_false_r.
  - intros line. rewrite keys_set_console.
    rewrite elem_of_app. intros [Hold|Hnew]; [by left|]. right.
    unfold write_errors in Hnew. apply list_elem_of_In, in_flat_map in Hnew.
    destruct Hnew as ([[category' id'] value'] & Hsrc & Hline).
    apply list_elem_of_In, arrange_elem_of in Hsrc.
    rewrite triples_one_category in Hsrc.
    apply list_elem_of_fmap in Hsrc as ([id'' value''] & [= -> -> ->] & Hsrc).
    simpl in Hline, Hsrc.
    destruct (truthy value'') eqn:Htruthy; [|by destruct Hline].
    assert (id'' <> id) as Hne.
    { intros ->. pose proof (entries_functional _ _ _ _ Hnd Hin Hsrc). congruence. }
    unfold task_request in Hline. simpl in Hline. rewrite Htruthy in Hline.
    destruct (db_fault X (Upsert _ _)) as [|e|e]; simpl in Hline;
      [done | destruct Hline as [<-|[]]; by exists id'', e..].
Qed.

(** X11. When several triples of a batch address one row, the one whose
    request the store serves last decides, when that request is served
    without error: the row holds what it wrote, or nothing when it was
    a deletion, whichever triple came first in the enumeration. *)
Theorem keys_set_last_wins a (data : list (string * list (string * Value))) w
        (pre post : list (string * string * Value)) t :
  arrange (serve_rank X) (triples data) = pre ++ t :: post ->
  task_row a t ∉ task_row a <$> post ->
  db_fault X (task_request a t) = NoFault ->
  auth_keys (keys_set X a data w) !! task_row a t
  = if truthy t.2 then Some (json t.2) else None.
Proof.
  intros Hsplit Hlast Hok. rewrite keys_set_table, Hsplit, foldl_app. simpl.
  rewrite tasks_other by done. by rewrite served_row, Hok.
Qed.

End BatchExtras.

Lemma category_batch_removal_witness :
  SupabaseAuthState.own
    (SupabaseAuthState.keys_get
       Scenario.healthy Scenario.alpha_auth "session"
       ["491701@s.whatsapp.net"; "491702@s.whatsapp.net"]
       (SupabaseAuthState.keys_set Scenario.healthy Scenario.alpha_auth
                                   [("session", Scenario.session_batch)]
                                   Scenario.two_sessions_world))
  !! "491702@s.whatsapp.net" = Some VNull.
Proof.
  destruct (category_batch_removal
              Scenario.healthy Scenario.alpha_auth "session" Scenario.session_batch
              Scenario.two_sessions_world "491702@s.whatsapp.net" VNull)
    as [Hget _].
  - compute_done.
  - apply list_elem_of_further, list_elem_of_here.
  - reflexivity.
  - discriminate.
  - exact Hget.
Defined.

Lemma keys_set_last_wins_witness :
  auth_keys (SupabaseAuthState.keys_set Scenario.healthy Scenario.alpha_auth
                                        Scenario.colliding_batch Scenario.blank)
  !! ("alpha", "sender-key-memory-x")
  = Some (VObj [("491701@s.whatsapp.net", VBool true)]) /\
  auth_keys (SupabaseAuthState.keys_set Scenario.last_first Scenario.alpha_auth
                                        Scenario.colliding_batch Scenario.blank)
  !! ("alpha", "sender-key-memory-x")
  = Some (VStr "AQ").
Proof.
  split.
  - apply (keys_set_last_wins
             Scenario.healthy Scenario.alpha_auth Scenario.colliding_batch
             Scenario.blank
             [("sender-key", "memory-x", VStr "AQ")] []
             ("sender-key-memory", "x", VObj [("491701@s.whatsapp.net", VBool true)])).
    + reflexivity.
    + apply not_elem_of_nil.
    + reflexivity.
  - apply (keys_set_last_wins
             Scenario.last_first Scenario.alpha_auth Scenario.colliding_batch
             Scenario.blank
             [("sender-key-memory", "x", VObj [("491701@s.whatsapp.net", VBool true)])]
             [] ("sender-key", "memory-x", VStr "AQ")).
    + reflexivity.
    + apply not_elem_of_nil.
    + reflexivity.
Defined.

(** ** SupabaseStorage.js: objects and paths *)

Section StorageExtras.
Import SupabaseStorage.
Context (X : External).
Implicit Types (s : Storage) (w : World).

Lemma string_length_append (a b : string) :
  String.length (a +:+ b) = (String.length a + String.length b)%nat.
Proof. induction a as [|c a IH]; simpl; [done | by rewrite IH]. Qed.

Lemma string_append_cancel_r (a b e : string) : a +:+ e = b +:+ e -> a = b.
Proof.
  revert b. induction a as [|c a IH]; intros [|d b] Heq; simpl in *.
  - done.
  - apply (f_equal String.length) in Heq.
    rewrite ?string_length_append in Heq. simpl in Heq.
    rewrite ?string_length_append in Heq. lia.
  - apply (f_equal String.length) in Heq.
    rewrite ?string_length_append in Heq. simpl in Heq.
    rewrite ?string_length_append in Heq. lia.
  - injection Heq as -> Heq. f_equal. by apply IH.
Qed.

(** Session ids that pass the test of [createSession] hold no ["/"], so
    the folder of a path tells the session. *)
Lemma folder_tells_session (sid1 sid2 rest1 rest2 : string) :
  WhatsAppManager.all_class sid1 = true ->
  WhatsAppManager.all_class sid2 = true ->
  sid1 +:+ "/" +:+ rest1 = sid2 +:+ "/" +:+ rest2 -> sid1 = sid2.
Proof.
  revert sid2. induction sid1 as [|c sid1 IH]; intros [|d sid2] H1 H2 Heq;
    simpl in *.
  - done.
  - injection Heq as <- _. by apply andb_true_iff in H2 as [? _].
  - injection Heq as -> _. by apply andb_true_iff in H1 as [? _].
  - injection Heq as -> Heq.
    apply andb_true_iff in H1 as [_ H1]. apply andb_true_iff in H2 as [_ H2].
    f_equal. by apply IH.
Qed.

Lemma uploadMedia_objects s (messageId : string) (buffer : list Z)
      (mimeType extension : string) w :
  objects (uploadMedia X s messageId buffer mimeType extension w).2
  = match storage_fault X (Upload (bucket s) (_getStoragePath s messageId extension)) with
    | NoFault =>
        <[(bucket s, _getStoragePath s messageId extension) := mkBlob buffer mimeType]>
          (objects w)
    | ErrorResult _ | Throws _ => objects w
    end.
Proof.
  unfold uploadMedia, storage_upload, storage_createSignedUrl.
  destruct (storage_fault X (Upload _ _)); simpl; [|done..].
  by destruct (storage_fault X (CreateSignedUrl _ _ _)).
Qed.

Lemma downloadMedia_spec s (messageId extension : string) w :
  downloadMedia X s messageId extension w
  = match storage_fault X (Download (bucket s) (_getStoragePath s messageId extension)) with
    | NoFault =>
        blob_bytes <$> objects w !! (bucket s, _getStoragePath s messageId extension)
    | ErrorResult _ | Throws _ => None
    end.
Proof.
  unfold downloadMedia, storage_download.
  destruct (storage_fault X (Download _ _)); simpl; [|done..].
  by destruct (objects w !! _).
Qed.

(** X12. Upload and download.  When the store serves the upload and the
    download of a path, [downloadMedia] after [uploadMedia] gives the
    uploaded bytes, whether or not the signed URL could be issued.  For
    paths that the service takes as they are, a later upload of the
    session replaces them exactly when its message id and extension give
    the same path, be it the same message again or another one (as ['a']
    with ['.b.c'] and ['a.b'] with ['.c']); an upload for any other path,
    served or not, leaves them alone.  Two message ids with the same
    extension never give the same path. *)
Theorem upload_then_download s (messageId : string) (buffer : list Z)
        (mimeType extension : string) w :
  storage_fault X (Upload (bucket s) (_getStoragePath s messageId extension)) = NoFault ->
  storage_fault X (Download (bucket s) (_getStoragePath s messageId extension)) = NoFault ->
  downloadMedia X s messageId extension
                (uploadMedia X s messageId buffer mimeType extension w).2
  = Some buffer /\
  (forall (other otherExtension : string) (buffer' : list Z) (mimeType' : string),
      answered_path X (bucket s) (_getStoragePath s messageId extension)
      = _getStoragePath s messageId extension ->
      answered_path X (bucket s) (_getStoragePath s other otherExtension)
      = _getStoragePath s other otherExtension ->
      downloadMedia X s messageId extension
        (uploadMedia X s other buffer' mimeType' otherExtension
           (uploadMedia X s messageId buffer mimeType extension w).2).2
      = Some (if decide (_getStoragePath s other otherExtension
                         = _getStoragePath s messageId extension)
              then buffer' else buffer)) /\
  (forall other : string,
      other <> messageId ->
      _getStoragePath s other extension <> _getStoragePath s messageId extension).
Proof.
  intros Hup Hdown. split; [|split].
  - rewrite downloadMedia_spec, Hdown, uploadMedia_objects, Hup.
    by rewrite lookup_insert_eq.
  - intros other otherExtension buffer' mimeType' _ _.
    rewrite downloadMedia_spec, Hdown, uploadMedia_objects.
    case_decide as Hpath.
    + rewrite Hpath, Hup. by rewrite lookup_insert_eq.
    + destruct (storage_fault X (Upload (bucket s)
                                        (_getStoragePath s other otherExtension)));
        rewrite ?lookup_insert_ne by congruence;
        rewrite uploadMedia_objects, Hup; by rewrite lookup_insert_eq.
  - intros other Hother. unfold _getStoragePath. intros Heq.
    apply (inj (String.append (sessionId s))) in Heq.
    apply (inj (String.append "/")) in Heq.
    by apply string_append_cancel_r in Heq.
Qed.

Lemma remove_paths_lookup (b : string) (paths : list string)
      (o : gmap (string * string) Blob) (key : string * string) :
  foldr (fun p acc => delete (b, p) acc) o paths !! key
  = if decide (key ∈ (fun p => (b, p)) <$> paths) then None else o !! key.
Proof.
  induction paths as [|p paths IH]; simpl; [done|].
  destruct (decide (key = (b, p))) as [->|Hne].
  - rewrite lookup_delete_eq, decide_True; [done | apply list_elem_of_here].
  - rewrite lookup_delete_ne by done. rewrite IH.
    destruct (decide (key ∈ (fun p0 => (b, p0)) <$> paths)) as [Hin|Hnin].
    + rewrite decide_True; [done | by apply list_elem_of_further].
    + rewrite decide_False; [done|].
      intros [?|?]%elem_of_cons; [congruence | done].
Qed.

(** X13. [deleteMedia] never throws.  When the store serves the removal,
    the object is gone ([downloadMedia] gives nothing), every other object
    is as before and the deletion is printed; when the removal answers with
    an error or throws, the world is exactly as before and nothing is
    printed. *)
Theorem deleteMedia_effect s (messageId extension : string) w :
  match storage_fault X (Remove (bucket s) [_getStoragePath s messageId extension]) with
  | NoFault =>
      downloadMedia X s messageId extension (deleteMedia X s messageId extension w)
      = None /\
      (forall key : string * string,
          key <> (bucket s, _getStoragePath s messageId extension) ->
          objects (deleteMedia X s messageId extension w) !! key = objects w !! key) /\
      console (deleteMedia X s messageId extension w)
      = console w ++ [LogMediaDeleted (sessionId s)
                                      (_getStoragePath s messageId extension)]
  | ErrorResult _ | Throws _ => deleteMedia X s messageId extension w = w
  end.
Proof.
  unfold deleteMedia, storage_remove.
  destruct (storage_fault X (Remove _ _)); simpl; [|done..].
  split; [|split; [|done]].
  - rewrite downloadMedia_spec. destruct (storage_fault X (Download _ _)); [|done..].
    simpl. by rewrite lookup_delete_eq.
  - intros key Hkey. by rewrite lookup_delete_ne.
Qed.

Lemma deleteAllMedia_outside s w (key : string * string) :
  key.1 <> bucket s \/ (forall name, key.2 <> sessionId s +:+ "/" +:+ name) ->
  objects (deleteAllMedia X s w) !! key = objects w !! key.
Proof.
  intros Hkey. unfold deleteAllMedia, storage_list, storage_remove.
  destruct (storage_fault X (ListFolder (bucket s) (sessionId s))); simpl; [|done..].
  destruct (storage_listing X (objects w) (bucket s) (sessionId s))
    as [|file files]; [done|].
  remember (map (fun name => sessionId s +:+ "/" +:+ name) (file :: files))
    as paths eqn:Hpaths.
  destruct (storage_fault X (Remove (bucket s) paths)); simpl; [|done..].
  rewrite remove_paths_lookup, decide_False; [done|].
  intros Hin. apply list_elem_of_fmap in Hin as (p & -> & Hp). subst paths.
  apply (list_elem_of_fmap (fun name => sessionId s +:+ "/" +:+ name)) in Hp
    as (name & -> & _).
  destruct Hkey as [Hb|Hp]; [done | by apply (Hp name)].
Qed.

(** X14. [deleteAllMedia] never throws, never touches the credentials and
    removes nothing outside the folder of its session: an object in another
    bucket, or at a path that is not ["<sessionId>/<name>"], is as before
    whatever the store does.  When the listing and the removal are served,
    every listed object of the folder is gone; when the listing fails or is
    empty, nothing is removed and nothing is asked of the store again. *)
Theorem deleteAllMedia_scope s w :
  auth_keys (deleteAllMedia X s w) = auth_keys w /\
  (forall key : string * string,
      key.1 <> bucket s \/ (forall name, key.2 <> sessionId s +:+ "/" +:+ name) ->
      objects (deleteAllMedia X s w) !! key = objects w !! key) /\
  (storage_fault X (ListFolder (bucket s) (sessionId s)) = NoFault ->
   storage_fault X (Remove (bucket s)
                      (map (fun name => sessionId s +:+ "/" +:+ name)
                           (storage_listing X (objects w) (bucket s) (sessionId s))))
   = NoFault ->
   forall name : string,
     name ∈ storage_listing X (objects w) (bucket s) (sessionId s) ->
     objects (deleteAllMedia X s w) !! (bucket s, sessionId s +:+ "/" +:+ name) = None) /\
  (storage_fault X (ListFolder (bucket s) (sessionId s)) <> NoFault \/
   storage_listing X (objects w) (bucket s) (sessionId s) = [] ->
   objects (deleteAllMedia X s w) = objects w).
Proof.
  split; [|split; [apply deleteAllMedia_outside|]].
  - unfold deleteAllMedia, storage_list, storage_remove.
    destruct (storage_fault X (ListFolder _ _)); simpl; [|done..].
    destruct (storage_listing X _ _ _) as [|file files]; [done|].
    by destruct (storage_fault X (Remove _ _)).
  - unfold deleteAllMedia, storage_list, storage_remove. split.
    + intros Hlist Hremove name Hin. rewrite Hlist. simpl.
      destruct (storage_listing X (objects w) (bucket s) (sessionId s))
        as [|file files] eqn:Hfiles; [by apply elem_of_nil in Hin|].
      remember (map (fun n => sessionId s +:+ "/" +:+ n) (file :: files))
        as paths eqn:Hpaths.
      rewrite Hremove. simpl.
      rewrite remove_paths_lookup, decide_True; [done|].
      apply (list_elem_of_fmap_2 (fun p => (bucket s, p))). subst paths.
      by apply (list_elem_of_fmap_2 (fun n => sessionId s +:+ "/" +:+ n)).
    + intros [Hlist | Hempty].
      * by destruct (storage_fault X (ListFolder _ _)).
      * rewrite Hempty. by destruct (storage_fault X (ListFolder _ _)).
Qed.

(** X15. Media of different sessions never meet.  For sessions whose ids
    pass the test of [createSession], the paths of one session differ from
    all paths of the other, so that an upload or a deletion by one session,
    whatever the store does, leaves every object of the other session as it
    was. *)
Theorem media_session_scoped s other (messageId extension : string) (buffer : list Z)
        (mimeType : string) (theirs theirExtension : string) w :
  WhatsAppManager.regex_test (sessionId s) = true ->
  WhatsAppManager.regex_test (sessionId other) = true ->
  sessionId s <> sessionId other ->
  _getStoragePath s messageId extension <> _getStoragePath other theirs theirExtension /\
  objects (uploadMedia X s messageId buffer mimeType extension w).2
  !! (bucket other, _getStoragePath other theirs theirExtension)
  = objects w !! (bucket other, _getStoragePath other theirs theirExtension) /\
  objects (deleteMedia X s messageId extension w)
  !! (bucket other, _getStoragePath other theirs theirExtension)
  = objects w !! (bucket other, _getStoragePath other theirs theirExtension) /\
  objects (deleteAllMedia X s w)
  !! (bucket other, _getStoragePath other theirs theirExtension)
  = objects w !! (bucket other, _getStoragePath other theirs theirExtension).
Proof.
  intros Hs Ho Hdiff.
  assert (forall rest rest', sessionId s +:+ "/" +:+ rest
                             <> sessionId other +:+ "/" +:+ rest') as Hpaths.
  { intros rest rest' Heq. apply Hdiff.
    unfold WhatsAppManager.regex_test in Hs, Ho.
    apply andb_true_iff in Hs as [_ Hs]. apply andb_true_iff in Ho as [_ Ho].
    by apply (folder_tells_session _ _ rest rest'). }
  split; [apply Hpaths|]. split; [|split].
  - rewrite uploadMedia_objects.
    destruct (storage_fault X (Upload _ _)); [|done..].
    apply lookup_insert_ne. intros [= _ Heq]. by apply Hpaths in Heq.
  - unfold deleteMedia, storage_remove.
    destruct (storage_fault X (Remove _ _)); simpl; [|done..].
    apply lookup_delete_ne. intros [= _ Heq]. by apply Hpaths in Heq.
  - apply deleteAllMedia_outside. right. simpl.
    intros name Heq. symmetry in Heq. by apply Hpaths in Heq.
Qed.

End StorageExtras.

Lemma upload_then_download_witness :
  SupabaseStorage.downloadMedia
    Scenario.signing_throws Scenario.alpha_media "3EB0A1" ".png"
    (SupabaseStorage.uploadMedia Scenario.signing_throws Scenario.alpha_media
                                 "3EB0A1" [137; 80; 78; 71] "image/png" ".png"
                                 Scenario.media_world).2
  = Some [137; 80; 78; 71] /\
  SupabaseStorage.downloadMedia
    Scenario.healthy Scenario.alpha_media "a" ".b.c"
    (SupabaseStorage.uploadMedia
       Scenario.healthy Scenario.alpha_media "a.b" [2] "text/plain" ".c"
       (SupabaseStorage.uploadMedia Scenario.healthy Scenario.alpha_media
                                    "a" [1] "text/plain" ".b.c"
                                    Scenario.media_world).2).2
  = Some [2].
Proof.
  split.
  - destruct (upload_then_download
                Scenario.signing_throws Scenario.alpha_media "3EB0A1"
                [137; 80; 78; 71] "image/png" ".png" Scenario.media_world)
      as [Hsame _]; [reflexivity | reflexivity | exact Hsame].
  - destruct (upload_then_download
                Scenario.healthy Scenario.alpha_media "a" [1] "text/plain" ".b.c"
                Scenario.media_world) as (_ & Hlater & _);
      [reflexivity | reflexivity |].
    exact (Hlater "a.b" ".c" [2] "text/plain" eq_refl eq_refl).
Defined.

Lemma deleteMedia_effect_witness :
  objects (SupabaseStorage.deleteMedia Scenario.healthy Scenario.alpha_media
                                       "3EB0A1" ".png" Scenario.media_world)
  !! ("chatery-media", "beta/3EB0A1.png")
  = Some (mkBlob [3] "image/png").
Proof.
  destruct (deleteMedia_effect Scenario.healthy Scenario.alpha_media "3EB0A1" ".png"
                               Scenario.media_world) as (_ & Hother & _).
  rewrite (Hother ("chatery-media", "beta/3EB0A1.png")); [reflexivity | discriminate].
Defined.

Lemma deleteAllMedia_scope_witness :
  objects (SupabaseStorage.deleteAllMedia Scenario.listing_alpha Scenario.alpha_media
                                          Scenario.media_world)
  !! ("chatery-media", "alpha/3EB0A1.png") = None /\
  objects (SupabaseStorage.deleteAllMedia Scenario.listing_alpha Scenario.alpha_media
                                          Scenario.media_world)
  !! ("chatery-media", "beta/3EB0A1.png") = Some (mkBlob [3] "image/png").
Proof.
  destruct (deleteAllMedia_scope Scenario.listing_alpha Scenario.alpha_media
                                 Scenario.media_world) as (_ & Hout & Hgone & _).
  split.
  - apply (Hgone eq_refl eq_refl "3EB0A1.png"). apply list_elem_of_here.
  - rewrite (Hout ("chatery-media", "beta/3EB0A1.png")); [reflexivity|].
    right. intros name. discriminate.
Defined.

Lemma media_session_scoped_witness :
  objects (SupabaseStorage.deleteAllMedia Scenario.listing_alpha Scenario.alpha_media
                                          Scenario.media_world)
  !! ("chatery-media", "beta/3EB0A1.png") = Some (mkBlob [3] "image/png").
Proof.
  destruct (media_session_scoped
              Scenario.listing_alpha Scenario.alpha_media Scenario.beta_media
              "3EB0A1" ".png" [1; 2] "image/png" "3EB0A1" ".png" Scenario.media_world)
    as (_ & _ & _ & Hall).
  - reflexivity.
  - reflexivity.
  - discriminate.
  - exact (eq_trans Hall eq_refl).
Defined.

(** ** WhatsAppManager.js: the map of handles *)

Section RegistryExtras.
Import WhatsAppManager.
Context {H W Info : Type} (S : SessionClass H W Info).
Implicit Types (m : Manager H W) (h : H) (id : string).

(** X16. A first [createSession] for a valid id.  One handle is
    constructed with the given options, its configuration is saved, it is
    put in the map behind the ids that were there, and [connect()] is
    called on it, in this order.  The handle is in the map whether
    [connect()] returns, and then the answer is the success with the
    snapshot of that handle, or throws, and then the exception goes to the
    caller and the map keeps the handle. *)
Theorem createSession_fresh id (options : Options) m :
  regex_test id = true ->
  getSession id m = None ->
  let m' := (createSession S id options m).2 in
  journal m' = journal m ++ [Constructed id; SavedConfig id; ConnectCalled id] /\
  JsMap.keys (sessions m') = JsMap.keys (sessions m) ++ [id] /\
  exists h : H,
    getSession id m' = Some h /\
    ((createSession S id options m).1
     = Returned (mkResult true "Session created" (Some (getInfo S h))) \/
     exists e : string, (createSession S id options m).1 = Threw e) /\
    (returns (connect S (_saveConfig S (construct S id options (world m)) (world m)).1
                      (_saveConfig S (construct S id options (world m)) (world m)).2).1.1 ->
     (createSession S id options m).1
     = Returned (mkResult true "Session created" (Some (getInfo S h)))).
Proof.
  intros Hv Hnone m'. subst m'. unfold getSession in *.
  pose proof (proj1 (jsmap_get_None _ _) Hnone) as Hfresh.
  unfold createSession. rewrite (valid_id_passes _ Hv), Hnone. simpl.
  destruct (_saveConfig S _ _) as [session1 w1]. simpl.
  destruct (connect S session1 w1) as [[r session2] w2]. simpl.
  assert (JsMap.keys (JsMap.set id session2 (JsMap.set id session1 (sessions m)))
          = JsMap.keys (sessions m) ++ [id]) as Hkeys.
  { rewrite jsmap_keys_set_present
      by (rewrite jsmap_keys_set_absent by done;
          apply elem_of_app; right; apply list_elem_of_here).
    by apply jsmap_keys_set_absent. }
  destruct r as [u|e]; simpl; (split; [by rewrite <- !app_assoc|]);
    (split; [exact Hkeys|]); exists session2;
    (split; [apply jsmap_get_set_eq|]).
  - split; [by left | done].
  - split; [right; by exists e | done].
Qed.

Lemma update_existing_others id id' (options : Options) (existing : H) m :
  id' <> id ->
  JsMap.get id' (sessions (update_existing S id options existing m).2)
  = JsMap.get id' (sessions m).
Proof.
  intros Hne. unfold update_existing. destruct (truthy _ || truthy _); [|done].
  destruct (updateConfig S options existing (world m)) as [h w]. simpl.
  by apply jsmap_get_set_ne.
Qed.

(** X17. A call for one id leaves the handles of the other ids alone:
    after [createSession] or [deleteSession] for an id, whatever the
    outcome, [getSession] gives for every other id what it gave before. *)
Theorem other_handles_untouched id id' (options : Options) m :
  id' <> id ->
  getSession id' (createSession S id options m).2 = getSession id' m /\
  getSession id' (deleteSession S id m).2 = getSession id' m.
Proof.
  intros Hne. unfold getSession. split.
  - unfold createSession.
    destruct (String.eqb id "" || negb (regex_test id)); [done|].
    destruct (JsMap.get id (sessions m)) as [existing|].
    + pose proof (update_existing_others id id' options existing m Hne) as Hupd.
      destruct (update_existing S id options existing m) as [h m1]. simpl in Hupd.
      destruct (String.eqb (connectionStatus S h) "connected"); [done|].
      destruct (connect S h (world m1)) as [[r h2] w2].
      destruct r; simpl; by rewrite jsmap_get_set_ne by congruence.
    + simpl. destruct (_saveConfig S _ _) as [session1 w1]. simpl.
      destruct (connect S session1 w1) as [[r session2] w2].
      destruct r; simpl; by rewrite !jsmap_get_set_ne by congruence.
  - unfold deleteSession.
    destruct (JsMap.get id (sessions m)) as [h|]; [|done].
    destruct (logout S h (world m)) as [[r h'] w'].
    destruct r; simpl.
    + rewrite jsmap_get_delete_ne by congruence. by rewrite jsmap_get_set_ne by congruence.
    + by rewrite jsmap_get_set_ne by congruence.
Qed.

(** X18. Deleting twice, and creating again.  When [logout()] returns,
    a second [deleteSession] for the id answers not-found and changes
    nothing, and a [createSession] for the id after the deletion constructs
    a new handle. *)
Theorem deleteSession_then id (options : Options) m h :
  getSession id m = Some h ->
  returns (logout S h (world m)).1.1 ->
  let m1 := (deleteSession S id m).2 in
  deleteSession S id m1 = (Returned (mkResult false "Session not found" None), m1) /\
  (regex_test id = true ->
   constructions id (journal (createSession S id options m1).2)
   = Datatypes.S (constructions id (journal m1)) /\
   is_Some (getSession id (createSession S id options m1).2)).
Proof.
  intros Hget Hret m1.
  assert (getSession id m1 = None) as Hgone.
  { subst m1. unfold getSession, deleteSession in *. rewrite Hget.
    destruct (logout S h (world m)) as [[r h'] w']. simpl in Hret.
    destruct r; [|done]. simpl. apply jsmap_get_delete_eq. }
  split; [by apply deleteSession_absent|].
  intros Hv.
  destruct (createSession_effect S id options m1 Hv) as (Hsome & _ & Hn).
  rewrite decide_False in Hn by (by apply jsmap_get_None).
  split; [lia | done].
Qed.

Lemma set_add_fold_elem (rows acc : list string) (x : string) :
  x ∈ foldl (fun s id => set_add id s) acc rows <-> x ∈ acc \/ x ∈ rows.
Proof.
  revert acc. induction rows as [|r rows IH]; intros acc; simpl.
  - rewrite elem_of_nil. tauto.
  - rewrite IH, elem_of_cons. unfold set_add. case_bool_decide as Hr.
    + split; [tauto|]. intros [?|[->|?]]; auto.
    + rewrite elem_of_app, list_elem_of_singleton. tauto.
Qed.

Lemma directories_all (dirs : list (string * Outcome bool)) (acc : list string) :
  Forall (fun d : string * Outcome bool => returns d.2) dirs ->
  exists ids : list string,
    directories acc dirs = Returned ids /\
    forall x : string, x ∈ ids <-> x ∈ acc \/ (x, Returned true) ∈ dirs.
Proof.
  revert acc. induction dirs as [|[d [isdir|e]] dirs IH]; intros acc Hall; simpl.
  - exists acc. split; [done|]. intros x. rewrite elem_of_nil. tauto.
  - apply Forall_cons in Hall as [_ Hall].
    destruct (IH (if isdir then set_add d acc else acc) Hall) as (ids & -> & Hids).
    exists ids. split; [done|]. intros x. rewrite Hids, elem_of_cons.
    destruct isdir.
    + unfold set_add. case_bool_decide as Hd.
      * split; [tauto|]. intros [?|[[= ->]|?]]; auto.
      * rewrite elem_of_app, list_elem_of_singleton.
        split; [intros [[?| ->]|?]; auto | intros [?|[[= ->]|?]]; auto].
    + split; [tauto|]. intros [?|[[=]|?]]; auto.
  - by apply Forall_cons in Hall as [[] _].
Qed.

Lemma directories_throw (pre post : list (string * Outcome bool)) (name e : string)
      (acc : list string) :
  Forall (fun d : string * Outcome bool => returns d.2) pre ->
  directories acc (pre ++ (name, Threw e) :: post) = Threw e.
Proof.
  revert acc. induction pre as [|[d [isdir|e']] pre IH]; intros acc Hall; simpl.
  - done.
  - apply Forall_cons in Hall as [_ Hall]. by apply IH.
  - by apply Forall_cons in Hall as [[] _].
Qed.

Lemma catalog_ids_elem m (id : string) :
  id ∈ (catalog_ids [] m).1 <->
  useSupabase m = true /\
  exists rows, catalog m = Returned (mkAnswer (Some rows) None) /\ id ∈ rows.
Proof.
  unfold catalog_ids.
  assert (forall x : string, x ∈ @nil string <-> False) as Hnil
      by (intros x; rewrite elem_of_nil; tauto).
  destruct (useSupabase m);
    [destruct (catalog m) as [[[rows|] [e|]]|e] eqn:Hcat|]; simpl;
    rewrite ?set_add_fold_elem, ?Hnil; clear Hnil;
    (split; [intros [[]|?] || intros [] | intros [? (? & ? & ?)]]);
    simplify_eq; eauto 7.
Qed.

(** X19. Discovery at start-up.  The map of handles is not touched.  A
    missing folder is made, and when [mkdirSync] returns the discovered
    ids are those of the catalog.  When the folder is there and every
    call of [fs] returns, the discovered ids hold no id twice, and an id
    is discovered exactly when the catalog is used and answers, without
    error, with rows that name it, or the folder holds a directory of that
    name; a catalog that throws or answers with an error takes nothing
    from the directories.  When [mkdirSync], [readdirSync] or the first
    failing [statSync] throws, the discovery ends with that exception,
    whatever the catalog and the entries before gave. *)
Theorem discover_union m :
  let from_catalog (id : string) :=
    useSupabase m = true /\
    exists rows, catalog m = Returned (mkAnswer (Some rows) None) /\ id ∈ rows in
  sessions (discover m).2 = sessions m /\
  match sessionsFolder m with
  | FolderMissing (Returned _) =>
      sessionsFolder (discover m).2 = FolderPresent (Returned []) /\
      exists ids : list string,
        (discover m).1 = Returned ids /\ NoDup ids /\
        forall id : string, id ∈ ids <-> from_catalog id
  | FolderMissing (Threw e) | FolderPresent (Threw e) => (discover m).1 = Threw e
  | FolderPresent (Returned dirs) =>
      (Forall (fun d : string * Outcome bool => returns d.2) dirs ->
       exists ids : list string,
         (discover m).1 = Returned ids /\ NoDup ids /\
         forall id : string,
           id ∈ ids <-> from_catalog id \/ (id, Returned true) ∈ dirs) /\
      (forall (pre post : list (string * Outcome bool)) (name e : string),
          dirs = pre ++ (name, Threw e) :: post ->
          Forall (fun d : string * Outcome bool => returns d.2) pre ->
          (discover m).1 = Threw e)
  end.
Proof.
  intros from_catalog. split; [apply discover_frame|].
  pose proof (discover_NoDup m) as Hnd.
  pose proof (catalog_ids_elem m) as Hcat.
  assert (sessionsFolder (catalog_ids [] m).2 = sessionsFolder m) as Hfolder.
  { unfold catalog_ids. destruct (useSupabase m); [|done].
    by destruct (catalog m) as [[[rows|] [e|]]|e]. }
  unfold discover in *. destruct (catalog_ids [] m) as [ids1 m1]. simpl in *.
  unfold folder_ids in *. rewrite Hfolder in *.
  destruct (sessionsFolder m) as [[u|e]|[dirs|e]]; simpl in *; try done.
  - split; [done|]. exists ids1. split; [done|]. split; [by apply Hnd|]. exact Hcat.
  - split.
    + intros Hall. destruct (directories_all dirs ids1 Hall) as (ids & Hrun & Hids).
      exists ids. split; [done|]. split; [by apply Hnd|].
      intros id. by rewrite Hids, Hcat.
    + intros pre post name e -> Hall. by apply directories_throw.
Qed.



End RegistryExtras.

Lemma createSession_fresh_witness :
  WhatsAppManager.journal
    (WhatsAppManager.createSession (WhatsAppSession.class Scenario.healthy) "alpha"
                                   Scenario.no_options Scenario.fresh_manager).2
  = [WhatsAppManager.Constructed "alpha"; WhatsAppManager.SavedConfig "alpha";
     WhatsAppManager.ConnectCalled "alpha"] /\
  JsMap.keys
    (WhatsAppManager.sessions
       (WhatsAppManager.createSession (WhatsAppSession.class Scenario.healthy) "alpha"
                                      Scenario.no_options Scenario.fresh_manager).2)
  = ["alpha"].
Proof.
  destruct (createSession_fresh (WhatsAppSession.class Scenario.healthy) "alpha"
                                Scenario.no_options Scenario.fresh_manager)
    as (Hjournal & Hkeys & _).
  - reflexivity.
  - reflexivity.
  - split; [exact Hjournal | exact Hkeys].
Defined.

Lemma other_handles_untouched_witness :
  WhatsAppManager.getSession
    "alpha"
    (WhatsAppManager.createSession (WhatsAppSession.class Scenario.healthy) "beta"
                                   Scenario.no_options Scenario.one_session).2
  = Some Scenario.alpha_handle /\
  WhatsAppManager.getSession
    "alpha"
    (WhatsAppManager.deleteSession (WhatsAppSession.class Scenario.healthy) "beta"
                                   Scenario.one_session).2
  = Some Scenario.alpha_handle.
Proof.
  apply (other_handles_untouched (WhatsAppSession.class Scenario.healthy)
                                 "beta" "alpha" Scenario.no_options
                                 Scenario.one_session).
  discriminate.
Defined.

Lemma deleteSession_then_witness :
  WhatsAppManager.deleteSession
    (WhatsAppSession.class Scenario.healthy) "alpha"
    (WhatsAppManager.deleteSession (WhatsAppSession.class Scenario.healthy) "alpha"
                                   Scenario.one_session).2
  = (Returned (WhatsAppManager.mkResult false "Session not found" None),
     (WhatsAppManager.deleteSession (WhatsAppSession.class Scenario.healthy) "alpha"
                                    Scenario.one_session).2).
Proof.
  destruct (deleteSession_then (WhatsAppSession.class Scenario.healthy) "alpha"
                               Scenario.no_options Scenario.one_session
                               Scenario.alpha_handle) as [Hagain _].
  - reflexivity.
  - exact I.
  - exact Hagain.
Defined.


Lemma discover_union_witness :
  (WhatsAppManager.discover Scenario.dangling_link).1
  = Threw "ENOENT: no such file or directory, stat 'sessions/gone'".
Proof.
  apply (proj2 (proj2 (discover_union Scenario.dangling_link))
               [("alpha", Returned true)] [("beta", Returned true)] "gone").
  - reflexivity.
  - by repeat constructor.
Defined.
